(** * vsc-administration: reconciliation of VOs, accounts and Slurm accounting

    A shallow embedding of the parts of [vsc.administration] that the
    specification talks about:

    - [lib/vsc/administration/slurm/sacct.py]   (module [Sacct])
    - [bin/sync_slurm_acct.py]                  (module [SyncSlurmAcct])
    - [lib/vsc/administration/vo.py]            (module [Vo])
    - [lib/vsc/administration/project.py]       (module [Project])
    - [bin/sync_muk_projects.py]                (module [SyncMukProjects])

    Python exceptions are values of [exn]; a computation that may raise
    returns a [result].  Code that talks to the outside world (storage
    backends, the account page, the accounting tool) threads an abstract
    world and a log of the calls it issued. *)

From Stdlib Require Import ZArith Ascii String List Bool Lia.
From stdpp Require Import base option list gmap strings sorting.

Local Open Scope string_scope.

(** ** Python preliminaries *)

Module Py.

(** The exceptions the embedded code raises or catches.  All of them derive
    from [Exception], so an [except Exception] clause catches every one. *)
Inductive exn : Type :=
  | IndexError
  | KeyError
  | TypeError
  | RuntimeError
  | AttributeError
  | UnboundLocalError
  | HTTPError (code : Z)
  | BackendError (msg : string)        (* the [fs_backend_err] of a storage *)
  | SacctParseException
  | SacctMgrException (command : list string)
  | VoStatusUpdateError
  | UserStatusUpdateError
  | OtherException (name : string).

Inductive result (A : Type) : Type :=
  | Ok (a : A)
  | Raise (e : exn).
Arguments Ok {A} a.
Arguments Raise {A} e.

Definition is_ok {A} (r : result A) : bool :=
  match r with Ok _ => true | Raise _ => false end.

(** [isinstance(e, C)] for the classes named in [except C:] clauses. *)
Definition is_HTTPError (e : exn) : bool :=
  match e with HTTPError _ => true | _ => false end.
Definition is_IndexError (e : exn) : bool :=
  match e with IndexError => true | _ => false end.
Definition is_KeyError (e : exn) : bool :=
  match e with KeyError => true | _ => false end.
Definition is_AttributeError (e : exn) : bool :=
  match e with AttributeError => true | _ => false end.

(** [str.isspace] on the characters of a byte string: the characters that
    [str.rstrip()] removes. *)
Definition isspace (c : ascii) : bool :=
  let n := nat_of_ascii c in
  (((9 <=? n) && (n <=? 13)) || ((28 <=? n) && (n <=? 32)))%nat.

(** [s.rstrip()] *)
Fixpoint rstrip (s : string) : string :=
  match s with
  | EmptyString => EmptyString
  | String c s' =>
      match rstrip s' with
      | EmptyString => if isspace c then EmptyString else String c EmptyString
      | r => String c r
      end
  end.

(** [s.split(sep)] for a one-character separator. *)
Fixpoint split (sep : ascii) (s : string) : list string :=
  match s with
  | EmptyString => [EmptyString]
  | String c s' =>
      if Ascii.eqb c sep then EmptyString :: split sep s'
      else match split sep s' with
           | [] => [String c EmptyString]
           | w :: ws => String c w :: ws
           end
  end.

(** [s.replace(old, new)] for a one-character [old]. *)
Fixpoint replace (old : ascii) (new : string) (s : string) : string :=
  match s with
  | EmptyString => EmptyString
  | String c s' =>
      if Ascii.eqb c old then new ++ replace old new s'
      else String c (replace old new s')
  end.

(** [s.replace(old, new)] for strings [old] and [new].  [skip] counts the
    characters of a match that are still to be dropped. *)
Fixpoint replace_str_go (old new : string) (skip : nat) (s : string) : string :=
  match s with
  | EmptyString => if String.eqb old EmptyString then new else EmptyString
  | String c s' =>
      match skip with
      | S k => replace_str_go old new k s'
      | O =>
          if String.eqb old EmptyString then new ++ String c (replace_str_go old new 0 s')
          else if String.prefix old s
               then new ++ replace_str_go old new (String.length old - 1) s'
               else String c (replace_str_go old new 0 s')
      end
  end.

Definition replace_str (old new s : string) : string := replace_str_go old new 0 s.

(** [s.endswith(suffix)] *)
Definition endswith (s suffix : string) : bool :=
  let n := String.length s in
  let m := String.length suffix in
  (m <=? n)%nat && String.eqb (String.substring (n - m) m s) suffix.

(** [os.path.join(a, b)] on POSIX. *)
Definition os_path_join (a b : string) : string :=
  if String.prefix "/" b then b
  else if String.eqb a EmptyString || endswith a "/" then a ++ b
  else a ++ "/" ++ b.

(** Index just after the last ["/"] of [p] ([p.rfind('/') + 1]). *)
Fixpoint after_last_slash (p : string) : nat :=
  match p with
  | EmptyString => 0
  | String c p' =>
      match after_last_slash p' with
      | O => if Ascii.eqb c "/" then 1 else 0
      | S k => S (S k)
      end
  end.

Fixpoint all_slashes (s : string) : bool :=
  match s with
  | EmptyString => true
  | String c s' => Ascii.eqb c "/" && all_slashes s'
  end.

Fixpoint rstrip_slashes (s : string) : string :=
  match s with
  | EmptyString => EmptyString
  | String c s' =>
      match rstrip_slashes s' with
      | EmptyString => if Ascii.eqb c "/" then EmptyString else String c EmptyString
      | r => String c r
      end
  end.

(** [os.path.dirname(p)] on POSIX. *)
Definition os_path_dirname (p : string) : string :=
  let head := String.substring 0 (after_last_slash p) p in
  if negb (String.eqb head EmptyString) && negb (all_slashes head)
  then rstrip_slashes head else head.

(** Comparison of two tuples of integers, as in [version >= (3, 5, 0, 0)]. *)
Fixpoint tuple_ge (a b : list Z) : bool :=
  match a, b with
  | _, [] => true
  | [], _ :: _ => false
  | x :: a', y :: b' => if Z.eqb x y then tuple_ge a' b' else Z.ltb y x
  end.

(** [zip(xs, ys)]: stops at the shorter of the two. *)
Fixpoint zip {A B} (xs : list A) (ys : list B) : list (A * B) :=
  match xs, ys with
  | x :: xs', y :: ys' => (x, y) :: zip xs' ys'
  | _, _ => []
  end.

(** [dict(pairs)]: a later pair overrides an earlier one with the same key. *)
Definition dict {V} (pairs : list (string * V)) : gmap string V :=
  fold_left (fun d kv => <[kv.1 := kv.2]> d) pairs ∅.

(** *** Computations with state and exceptions

    A computation over a state [S] may change the state and either returns a
    value or raises; the state it leaves behind is kept in both cases, as a
    handler sees what happened before the exception. *)
Definition M (S A : Type) : Type := S → result A * S.

Definition ret {S A} (a : A) : M S A := fun s => (Ok a, s).

Definition raise {S A} (e : exn) : M S A := fun s => (Raise e, s).

Definition lift {S A} (r : result A) : M S A := fun s => (r, s).

Definition bind {S A B} (m : M S A) (k : A → M S B) : M S B :=
  fun s => match m s with
           | (Ok a, s') => k a s'
           | (Raise e, s') => (Raise e, s')
           end.

(** [try: m  except ... as e: h e] *)
Definition try_except {S A} (m : M S A) (h : exn → M S A) : M S A :=
  fun s => match m s with
           | (Ok a, s') => (Ok a, s')
           | (Raise e, s') => h e s'
           end.

(** [for x in l: f x] *)
Fixpoint for_each {S A} (f : A → M S unit) (l : list A) : M S unit :=
  match l with
  | [] => ret tt
  | x :: l' => bind (f x) (fun _ => for_each f l')
  end.

(** [[f x for x in l]] *)
Fixpoint map_each {S A B} (f : A → M S B) (l : list A) : M S (list B) :=
  match l with
  | [] => ret []
  | x :: l' => bind (f x) (fun y => bind (map_each f l') (fun ys => ret (y :: ys)))
  end.

End Py.
Export Py.

Notation "'let!' x ':=' m 'in' k" := (bind m (fun x => k))
  (at level 10, x binder, k at level 200).

(** ** slurm/sacct.py *)

Module Sacct.

(** [class SacctTypes(Enum)] has the single member [jobs]; the selector a
    caller passes is an arbitrary Python value, of which only equality with
    [SacctTypes.jobs] is observed. *)
Inductive info_type : Type :=
  | SacctTypes_jobs
  | OtherSelector (repr : string).

Definition SacctJobsFields : list string :=
  ["JobID"; "JobName"; "Partition"; "Account"; "AllocCPUS"; "State"; "ExitCode"].

(** [SlurmJobs = namedtuple_with_defaults('SlurmJobs', SacctJobsFields)]:
    every field defaults to [None]. *)
Record SlurmJobs : Type := mkSlurmJobsTuple {
  JobID : option string;
  JobName : option string;
  Partition : option string;
  Account : option string;
  AllocCPUS : option string;
  State : option string;
  ExitCode : option string;
}.

#[global] Instance SlurmJobs_eq_dec : EqDecision SlurmJobs.
Proof. solve_decision. Defined.

Definition SlurmJobs_to_tuple (j : SlurmJobs) :=
  (JobID j, JobName j, Partition j, Account j, AllocCPUS j, State j, ExitCode j).

Definition SlurmJobs_of_tuple
    (t : option string * option string * option string * option string *
         option string * option string * option string) : SlurmJobs :=
  let '(a, b, c, d, e, f, g) := t in mkSlurmJobsTuple a b c d e f g.

#[global] Instance SlurmJobs_countable : Countable SlurmJobs.
Proof.
  apply (inj_countable' SlurmJobs_to_tuple SlurmJobs_of_tuple).
  by intros [].
Defined.

(** What a creator hands back: [None] is Python's [None], [Some j] a
    [SlurmJobs] instance. *)
Definition info := option SlurmJobs.

(** Truth value of [info] in [if info:].  A [SlurmJobs] instance is a tuple
    of seven fields, hence non-empty, hence true. *)
Definition truthy (i : info) : bool :=
  match i with
  | None => false
  | Some _ => negb (Nat.eqb (length SacctJobsFields) 0)
  end.

(** [vsc.accountpage.wrappers.mkNamedTupleInstance] as the account-page
    client library has it: the keys that are fields of the named tuple are
    passed on as keyword arguments, the other keys are dropped, and a field
    without a key keeps its default. *)
Definition mkNamedTupleInstance_SlurmJobs (fields : gmap string string) : result info :=
  Ok (Some {| JobID := fields !! "JobID";
              JobName := fields !! "JobName";
              Partition := fields !! "Partition";
              Account := fields !! "Account";
              AllocCPUS := fields !! "AllocCPUS";
              State := fields !! "State";
              ExitCode := fields !! "ExitCode" |}).

Section Parser.

(** The creator [mkSlurmJobs] delegates to: the library function
    [mkNamedTupleInstance(fields, SlurmJobs)], which lives outside this
    repository.  The parser is defined for any behaviour of it. *)
Variable mkNamedTupleInstance : gmap string string → result info.

Definition mkSlurmJobs (fields : gmap string string) : result info :=
  mkNamedTupleInstance fields.

Definition parse_slurm_sacct_line
    (header : list string) (line : string) (it : info_type) : result info :=
  let fields := split "|"%char line in
  match it with
  | SacctTypes_jobs => mkSlurmJobs (dict (zip header fields))
  | OtherSelector _ => Raise SacctParseException
  end.

(** The body of [for line in lines[1:]]. *)
Fixpoint parse_slurm_sacct_lines
    (header : list string) (it : info_type)
    (lines : list string) (acct_info : gset info) : result (gset info) :=
  match lines with
  | [] => Ok acct_info
  | line :: rest =>
      let line := rstrip line in
      match parse_slurm_sacct_line header line it with
      | Raise err => Raise err                       (* logged and re-raised *)
      | Ok i =>
          if truthy i
          then parse_slurm_sacct_lines header it rest ({[ i ]} ∪ acct_info)
          else parse_slurm_sacct_lines header it rest acct_info
      end
  end.

Definition sacct_header (line0 : string) : list string :=
  map (fun w => replace "%"%char "PCT_" (replace " "%char "_" w))
      (split "|"%char (rstrip line0)).

Definition parse_slurm_sacct_dump (lines : list string) (it : info_type)
    : result (gset info) :=
  match lines with
  | [] => Raise IndexError                      (* lines[0] *)
  | line0 :: rest => parse_slurm_sacct_lines (sacct_header line0) it rest ∅
  end.

Definition SLURM_SACCT : string := "/usr/bin/sacct".

Section ActiveJobs.

(** What [get_slurm_sacct_active_jobs_for_user] uses of its libraries:
    [vsc.utils.run.asyncloop(cmd)] runs a command and hands back its exit
    code and output; [re.search(pattern, s)] says whether the pattern is
    found; [s.splitlines()] cuts the output into lines. *)
Context {W : Type}.
Variable asyncloop : list string → W → (Z * string) * W.
Variable re_search : string → string → bool.
Variable splitlines : string → list string.

(** [get_slurm_sacct_active_jobs_for_user(user)]: [None] is Python's
    [None].  The selector handed to the parser is the list
    [SacctJobsFields], not [SacctTypes.jobs]. *)
Definition get_slurm_sacct_active_jobs_for_user (user : string) (w : W)
    : result (option (gset info)) * W :=
  let '((exitcode, contents), w') :=
    asyncloop [SLURM_SACCT; "--allclusters"; "--parsable2"; "--state"; "RUNNING,PENDING";
               "--user"; user] w in
  if negb (Z.eqb exitcode 0) then
    if re_search ("sacct: error: Invalid user id: " ++ user) contents
    then (Ok None, w')                                     (* warning logged *)
    else (Raise (OtherException "SacctException"), w')
  else
    match parse_slurm_sacct_dump (splitlines contents) (OtherSelector "SacctJobsFields") with
    | Ok info => (Ok (Some info), w')
    | Raise e => (Raise e, w')
    end.

End ActiveJobs.

End Parser.

End Sacct.

(** ** bin/sync_slurm_acct.py *)

Module SyncSlurmAcct.

Section Run.

(** [RunQA.run(command, qa=..., add_newline=False)] runs an external
    command: it acts on the accounting database [W] and hands back an
    exit code (the output is dropped by the caller). *)
Context {W : Type}.
Variable RunQA_run : list string → W → Z * W.

(** [execute_commands(commands)], together with the commands it has run so
    far and the exit code of each. *)
Fixpoint execute_commands (commands : list (list string)) (w : W)
    (ran : list (list string * Z)) : result unit * W * list (list string * Z) :=
  match commands with
  | [] => (Ok tt, w, ran)
  | command :: rest =>
      let '(ec, w') := RunQA_run command w in
      if negb (Z.eqb ec 0)
      then (Raise (SacctMgrException command), w', (ran ++ [(command, ec)])%list)
      else execute_commands rest w' (ran ++ [(command, ec)])%list
  end.

End Run.

End SyncSlurmAcct.

(** ** vsc.utils.missing: [Monoid] and [MonoidDict] *)

Module Missing.

(** The values [process_vos] stores in its result dictionaries: lists of
    member identifiers, and, through [vo.members] without a call, the bound
    method [members] of a VO object. *)
Inductive pyobj : Type :=
  | PyList (ids : list string)
  | PyBoundMethod (self_vo_id : string) (name : string).

(** [listm = Monoid([], lambda xs, ys: xs + ys)]: [+] concatenates two
    lists and is not defined between a list and a method object. *)
Definition listm_null : pyobj := PyList [].

Definition listm_op (xs ys : pyobj) : result pyobj :=
  match xs, ys with
  | PyList a, PyList b => Ok (PyList (a ++ b)%list)
  | _, _ => Raise TypeError
  end.

(** [MonoidDict.__setitem__]: a key that is already present gets the old
    and the new value combined by the monoid, a fresh key gets the value. *)
Definition MonoidDict_setitem (d : gmap string pyobj) (key : string) (value : pyobj)
    : result (gmap string pyobj) :=
  match d !! key with
  | Some current =>
      match listm_op current value with
      | Ok v => Ok (<[key := v]> d)
      | Raise e => Raise e
      end
  | None => Ok (<[key := value]> d)
  end.

(** [MonoidDict.__getitem__]: the monoid's null element for a missing key. *)
Definition MonoidDict_getitem (d : gmap string pyobj) (key : string) : pyobj :=
  default listm_null (d !! key).

End Missing.

(** ** vo.py *)

Module Vo.

Import Missing.

(** *** Records served by the account page *)

(** [mkVo]: the fields of a VO this module reads. *)
Record VscVo : Type := {
  vsc_id : string;
  vsc_id_number : Z;
  status : string;
  vo_members : list string;           (* [vo.members] *)
  moderators : list string;
  institute_name : string;            (* [vo.institute['name']] *)
}.

(** [mkVscVoSizeQuota] and the user quota records. *)
Record VscQuota : Type := {
  q_storage_name : string;            (* [q.storage['name']] *)
  q_storage_institute : string;       (* [q.storage['institute']] *)
  q_storage_type : string;            (* [q.storage['storage_type']] *)
  hard : Z;
  fileset : string;
}.

(** [mkVscAccount] / [mkVscAutogroup]: identifier and number. *)
Record VscGroup : Type := {
  group_vsc_id : string;
  group_vsc_id_number : Z;
}.

(** A [VscTier2AccountpageUser] as this module sees it. *)
Record User : Type := {
  user_id : string;
  account : VscGroup;                 (* [member.account] *)
  usergroup : VscGroup;               (* [member.usergroup] *)
  user_vo_data_quota : list VscQuota;     (* [member.vo_data_quota] *)
  user_vo_scratch_quota : list VscQuota;  (* [member.vo_scratch_quota] *)
}.

(** *** Configuration ([vsc.config.base]) *)

Record Storage : Type := {
  backend : string;
  filesystem : option string;         (* [None]: the attribute is missing *)
  version : list Z;
  data_replication_factor : Z;
  login_mount_point : string;
  backend_mount_point : string;
  quota_vo : Z;
  api : list string;                  (* [api_url], [api_account], [api_user], [api_pwd] *)
}.

(** What [VscStorage()[key]] holds: the storages of an institute, or (older
    layout, still read at two places) one storage. *)
Inductive storage_entry : Type :=
  | InstituteStorage (fss : gmap string Storage)
  | PlainStorage (st : Storage).

Record Config : Type := {
  VSC_HOME : string;
  VSC_DATA : string;
  VSC_DATA_SHARED : string;
  NEW : string;
  MODIFIED : string;
  MODIFY : string;
  ACTIVE : string;
  DATA_KEY : string;
  SCRATCH_KEY : string;
  DEFAULT_VOS_ALL : list string;
  VSC_PRODUCTION_SCRATCH : gmap string (list string);
  INSTITUTE_VOS_BY_INSTITUTE : gmap string (gmap string string);
  VO_PREFIX_BY_INSTITUTE : gmap string string;
  VO_SHARED_PREFIX_BY_INSTITUTE : gmap string string;
  STORAGE_SHARED_SUFFIX : string;
(** [VSC().quota_soft_fraction], a Python float, as the rational
    [soft_num / soft_den]; products with it are taken exactly. *)
quota_soft_num : Z;
quota_soft_den : positive;
vo_storage_grace_time : Z;
storage : gmap string storage_entry;                    (* [VscStorage()] *)
(** [VscStorage().path_templates[institute][storage]['vo']] *)
path_templates : gmap string (gmap string (string → string * string));
}.

(** *** The outside world *)

(** The backend operator a storage gets in [__init__]. *)
Inductive operator : Type :=
  | GpfsOperations
  | OceanStorOperations (api : list string)
  | PosixOperations.

Definition backend_operator (st : Storage) : operator :=
  if String.eqb (backend st) "gpfs" then GpfsOperations
  else if String.eqb (backend st) "oceanstor" then OceanStorOperations (api st)
  else PosixOperations.

(** Methods of a backend operator. *)
Inductive fs_method : Type :=
  | list_filesets
  | get_fileset_info (filesystem_name fileset_name : string)
  | make_dir (path : string)
  | make_fileset (path fileset_name : string) (parent_fileset : option string)
  | chmod (mode : Z) (path : string)
  | chown (uid gid : Z) (path : string)
  | set_fileset_quota (soft : Z) (path fileset_name : string) (hard : option Z)
  | set_fileset_grace (path : string) (grace : Z)
  | set_user_quota (soft user : Z) (obj : string) (hard : Z)
  | create_stat_directory (target : string) (mode uid gid : Z) (override_permissions : bool).

(** Requests to the account page. *)
Inductive rest_request : Type :=
  | vo_get (vo_id : string)                       (* [client.vo[id].get()] *)
  | vo_quota_get (vo_id : string)                 (* [client.vo[id].quota.get()] *)
  | vo_patch (vo_id : string) (new_status : string)   (* [client.vo[id].patch(body={"status": s})] *)
  | vo_member_modified_get (vo_id datestamp : string)
  | autogroup_get (group_name : string)
  | account_get (account_id : string).

(** Everything the module asks of its collaborators.  A backend call
    carries the [dry_run] flag its operator object has at that moment. *)
Inductive call : Type :=
  | Backend (op : operator) (dry_run : bool) (m : fs_method)
  | Rest (r : rest_request)
  | getpwnam (name : string)                      (* [pwd.getpwnam(name).pw_uid] *)
  | new_VscTier2AccountpageVo (vo_id host_institute : string)
  | new_VscTier2AccountpageUser (vid host_institute : string)
  | user_set_dry_run (vid : string) (v : bool).   (* [member.dry_run = v] *)

(** What a collaborator hands back. *)
Inductive value : Type :=
  | VNone
  | VBool (b : bool)
  | VInt (z : Z)
  | VVo (vo : VscVo)
  | VQuota (qs : list VscQuota)
  | VGroup (g : VscGroup)
  | VIds (ids : list string)
  | VUser (u : User).

(** Python's truth value. *)
Definition truth (v : value) : bool :=
  match v with
  | VNone => false
  | VBool b => b
  | VInt z => negb (Z.eqb z 0)
  | VQuota qs => negb (Nat.eqb (length qs) 0)
  | VIds ids => negb (Nat.eqb (length ids) 0)
  | VVo _ | VGroup _ | VUser _ => true
  end.

(** A world answers calls, and may change while doing so. *)
Class World (W : Type) : Type :=
  perform : call → W → result value * W.

Definition event : Type := call * result value.

(** *** A VO object *)

Record VscTier2AccountpageVo : Type := {
  vo_id : string;
  host_institute : string;
  dry_run : bool;
  _vo_cache : option VscVo;
  _institute_quota_cache : option (list VscQuota);
  _vo_data_quota_cache : option (list Z);
  _vo_data_shared_quota_cache : option Z;
  _vo_scratch_quota_cache : option (list VscQuota);
  _sharing_group_cache : option VscGroup;
}.

Definition set_dry_run (v : bool) (o : VscTier2AccountpageVo) :=
  {| vo_id := vo_id o; host_institute := host_institute o; dry_run := v;
     _vo_cache := _vo_cache o; _institute_quota_cache := _institute_quota_cache o;
     _vo_data_quota_cache := _vo_data_quota_cache o;
     _vo_data_shared_quota_cache := _vo_data_shared_quota_cache o;
     _vo_scratch_quota_cache := _vo_scratch_quota_cache o;
     _sharing_group_cache := _sharing_group_cache o |}.

Definition set_vo_cache (c : option VscVo) (o : VscTier2AccountpageVo) :=
  {| vo_id := vo_id o; host_institute := host_institute o; dry_run := dry_run o;
     _vo_cache := c; _institute_quota_cache := _institute_quota_cache o;
     _vo_data_quota_cache := _vo_data_quota_cache o;
     _vo_data_shared_quota_cache := _vo_data_shared_quota_cache o;
     _vo_scratch_quota_cache := _vo_scratch_quota_cache o;
     _sharing_group_cache := _sharing_group_cache o |}.

Definition set_institute_quota_cache (c : option (list VscQuota)) (o : VscTier2AccountpageVo) :=
  {| vo_id := vo_id o; host_institute := host_institute o; dry_run := dry_run o;
     _vo_cache := _vo_cache o; _institute_quota_cache := c;
     _vo_data_quota_cache := _vo_data_quota_cache o;
     _vo_data_shared_quota_cache := _vo_data_shared_quota_cache o;
     _vo_scratch_quota_cache := _vo_scratch_quota_cache o;
     _sharing_group_cache := _sharing_group_cache o |}.

Definition set_vo_data_quota_cache (c : option (list Z)) (o : VscTier2AccountpageVo) :=
  {| vo_id := vo_id o; host_institute := host_institute o; dry_run := dry_run o;
     _vo_cache := _vo_cache o; _institute_quota_cache := _institute_quota_cache o;
     _vo_data_quota_cache := c;
     _vo_data_shared_quota_cache := _vo_data_shared_quota_cache o;
     _vo_scratch_quota_cache := _vo_scratch_quota_cache o;
     _sharing_group_cache := _sharing_group_cache o |}.

Definition set_vo_data_shared_quota_cache (c : option Z) (o : VscTier2AccountpageVo) :=
  {| vo_id := vo_id o; host_institute := host_institute o; dry_run := dry_run o;
     _vo_cache := _vo_cache o; _institute_quota_cache := _institute_quota_cache o;
     _vo_data_quota_cache := _vo_data_quota_cache o;
     _vo_data_shared_quota_cache := c;
     _vo_scratch_quota_cache := _vo_scratch_quota_cache o;
     _sharing_group_cache := _sharing_group_cache o |}.

Definition set_vo_scratch_quota_cache (c : option (list VscQuota)) (o : VscTier2AccountpageVo) :=
  {| vo_id := vo_id o; host_institute := host_institute o; dry_run := dry_run o;
     _vo_cache := _vo_cache o; _institute_quota_cache := _institute_quota_cache o;
     _vo_data_quota_cache := _vo_data_quota_cache o;
     _vo_data_shared_quota_cache := _vo_data_shared_quota_cache o;
     _vo_scratch_quota_cache := c;
     _sharing_group_cache := _sharing_group_cache o |}.

Definition set_sharing_group_cache (c : option VscGroup) (o : VscTier2AccountpageVo) :=
  {| vo_id := vo_id o; host_institute := host_institute o; dry_run := dry_run o;
     _vo_cache := _vo_cache o; _institute_quota_cache := _institute_quota_cache o;
     _vo_data_quota_cache := _vo_data_quota_cache o;
     _vo_data_shared_quota_cache := _vo_data_shared_quota_cache o;
     _vo_scratch_quota_cache := _vo_scratch_quota_cache o;
     _sharing_group_cache := c |}.

(** The state of [__init__] after the caches are cleared. *)
Definition fresh_vo (id institute : string) : VscTier2AccountpageVo :=
  {| vo_id := id; host_institute := institute; dry_run := false;
     _vo_cache := None; _institute_quota_cache := None;
     _vo_data_quota_cache := None; _vo_data_shared_quota_cache := None;
     _vo_scratch_quota_cache := None; _sharing_group_cache := None |}.

Section Methods.

Context {W : Type} `{!World W}.
Variable cfg : Config.

(** The state a method runs in: the world, the calls issued so far with
    their outcomes, and the VO object [self]. *)
Record St : Type := {
  world : W;
  log : list event;
  self : VscTier2AccountpageVo;
}.

Definition do_call (c : call) : M St value :=
  fun s => let '(r, w') := perform c (world s) in
           (r, {| world := w'; log := (log s ++ [(c, r)])%list; self := self s |}).

Definition get_self : M St VscTier2AccountpageVo := fun s => (Ok (self s), s).

Definition modify_self (f : VscTier2AccountpageVo → VscTier2AccountpageVo) : M St unit :=
  fun s => (Ok tt, {| world := world s; log := log s; self := f (self s) |}).

(** A call of a method of [storage.backend_operator[0]]. *)
Definition fs_call (st : Storage) (m : fs_method) : M St value :=
  let! o := get_self in
  do_call (Backend (backend_operator st) (dry_run o) m).

(** The wrappers ([mkVo], [mkVscVoSizeQuota], ...) applied to an answer
    of the wrong shape fail. *)
Definition as_vo (v : value) : M St VscVo :=
  match v with VVo x => ret x | _ => raise TypeError end.
Definition as_quota (v : value) : M St (list VscQuota) :=
  match v with VQuota x => ret x | _ => raise TypeError end.
Definition as_group (v : value) : M St VscGroup :=
  match v with VGroup x => ret x | _ => raise TypeError end.
Definition as_ids (v : value) : M St (list string) :=
  match v with VIds x => ret x | _ => raise TypeError end.
Definition as_user (v : value) : M St User :=
  match v with VUser x => ret x | _ => raise TypeError end.
Definition as_int (v : value) : M St Z :=
  match v with VInt x => ret x | _ => raise TypeError end.

(** [self.storage[institute][name]] *)
Definition storage_of (institute name : string) : result Storage :=
  match storage cfg !! institute with
  | None => Raise KeyError
  | Some (PlainStorage _) => Raise TypeError
  | Some (InstituteStorage fss) =>
      match fss !! name with
      | None => Raise KeyError
      | Some st => Ok st
      end
  end.

(** [self.storage[name].quota_vo] *)
Definition storage_quota_vo (name : string) : result Z :=
  match storage cfg !! name with
  | None => Raise KeyError
  | Some (PlainStorage st) => Ok (quota_vo st)
  | Some (InstituteStorage _) => Raise AttributeError
  end.

Definition getitem {V} (d : gmap string V) (k : string) : result V :=
  match d !! k with
  | Some v => Ok v
  | None => Raise KeyError
  end.

(** [VscAccountPageVo.vo]; [whenHTTPErrorRaise] logs and re-raises. *)
Definition vo : M St VscVo :=
  let! o := get_self in
  match _vo_cache o with
  | Some v => ret v
  | None =>
      let! r := do_call (Rest (vo_get (vo_id o))) in
      let! v := as_vo r in
      let! _ := modify_self (set_vo_cache (Some v)) in
      ret v
  end.

Definition _institute_quota : M St (list VscQuota) :=
  let! o := get_self in
  match _institute_quota_cache o with
  | Some (q :: qs) => ret (q :: qs)
  | _ =>
      let! v := vo in
      let! v' := vo in
      let! r := do_call (Rest (vo_quota_get (vsc_id v))) in
      let! all_quota := as_quota r in
      let cache :=
        List.filter (fun q => String.eqb (q_storage_institute q) (host_institute o)) all_quota in
      let! _ := modify_self (set_institute_quota_cache (Some cache)) in
      ret cache
  end.

Definition _get_institute_data_quota : M St (list VscQuota) :=
  let! qs := _institute_quota in
  ret (List.filter (fun q => String.eqb (q_storage_type q) (DATA_KEY cfg)) qs).

Definition _get_institute_non_shared_data_quota : M St (list Z) :=
  let! qs := _get_institute_data_quota in
  ret (map hard
         (List.filter (fun q => negb (endswith (q_storage_name q) (STORAGE_SHARED_SUFFIX cfg))) qs)).

Definition _get_institute_shared_data_quota : M St (list Z) :=
  let! qs := _get_institute_data_quota in
  ret (map hard
         (List.filter (fun q => endswith (q_storage_name q) (STORAGE_SHARED_SUFFIX cfg)) qs)).

Definition vo_data_quota : M St Z :=
  let! o := get_self in
  let! cache :=
    match _vo_data_quota_cache o with
    | Some (x :: l) => ret (x :: l)
    | _ =>
        let! c := _get_institute_non_shared_data_quota in
        let! _ := modify_self (set_vo_data_quota_cache (Some c)) in
        match c with
        | [] =>
            let! q := lift (storage_quota_vo (VSC_DATA cfg)) in
            let! _ := modify_self (set_vo_data_quota_cache (Some [q])) in
            ret [q]
        | _ => ret c
        end
    end in
  match cache with
  | x :: _ => ret x                              (* there can be only one *)
  | [] => raise IndexError
  end.

Definition vo_data_shared_quota : M St (option Z) :=
  let! o := get_self in
  let cached :=
    match _vo_data_shared_quota_cache o with
    | Some z => negb (Z.eqb z 0)
    | None => false
    end in
  if cached then ret (_vo_data_shared_quota_cache o)
  else
    try_except
      (let! l := _get_institute_shared_data_quota in
       match l with
       | x :: _ =>
           let! _ := modify_self (set_vo_data_shared_quota_cache (Some x)) in
           ret (Some x)
       | [] => raise IndexError
       end)
      (fun e => if is_IndexError e then ret None else raise e).

Definition vo_scratch_quota : M St (list VscQuota) :=
  let! o := get_self in
  match _vo_scratch_quota_cache o with
  | Some (q :: qs) => ret (q :: qs)
  | _ =>
      let! qs := _institute_quota in
      let cache := List.filter (fun q => String.eqb (q_storage_type q) (SCRATCH_KEY cfg)) qs in
      let! _ := modify_self (set_vo_scratch_quota_cache (Some cache)) in
      ret cache
  end.

Definition data_sharing : M St bool :=
  let! q := vo_data_shared_quota in
  ret (match q with Some _ => true | None => false end).

(** The name of the sharing group or fileset of a VO:
    [vsc_id.replace(VO_PREFIX_BY_INSTITUTE[i], VO_SHARED_PREFIX_BY_INSTITUTE[i])]
    with [i = self.vo.institute['name']]. *)
Definition shared_name : M St string :=
  let! v := vo in
  let! v1 := vo in
  let! prefix := lift (getitem (VO_PREFIX_BY_INSTITUTE cfg) (institute_name v1)) in
  let! v2 := vo in
  let! shared := lift (getitem (VO_SHARED_PREFIX_BY_INSTITUTE cfg) (institute_name v2)) in
  ret (replace_str prefix shared (vsc_id v)).

Definition sharing_group : M St (option VscGroup) :=
  let! ds := data_sharing in
  if negb ds then ret None
  else
    let! o := get_self in
    match _sharing_group_cache o with
    | Some g => ret (Some g)
    | None =>
        let! group_name := shared_name in
        let! r := do_call (Rest (autogroup_get group_name)) in
        let! g := as_group r in
        let! _ := modify_self (set_sharing_group_cache (Some g)) in
        ret (Some g)
    end.

(** [members(self)]: "Return a list with all the VO members in it." *)
Definition members : M St (list string) :=
  let! v := vo in
  ret (vo_members v).

Definition _get_path (storage_name mount_point : string) : M St string :=
  let! o := get_self in
  let! by_storage := lift (getitem (path_templates cfg) (host_institute o)) in
  let! template := lift (getitem by_storage storage_name) in
  let! v := vo in
  let path := fst (template (vsc_id v)) in
  let! mount_path :=
    if String.eqb mount_point "login" then
      let! st := lift (storage_of (host_institute o) storage_name) in
      ret (login_mount_point st)
    else if String.eqb mount_point "backend" then
      let! st := lift (storage_of (host_institute o) storage_name) in
      ret (backend_mount_point st)
    else raise (OtherException "Exception") in
  ret (os_path_join mount_path path).

Definition _data_path : M St string := _get_path (VSC_DATA cfg) "backend".

Definition _data_shared_path : M St string := _get_path (VSC_DATA_SHARED cfg) "backend".

Definition _scratch_path (storage_name : string) : M St string :=
  _get_path storage_name "backend".

(** [_create_fileset(storage, path, parent_fileset, fileset_name, group_owner_id)] *)
Definition _create_fileset (st : Storage) (path : string)
    (parent_fileset : option string) (fileset_name : option string)
    (group_owner_id : option Z) : M St unit :=
  (* fs_backend.list_filesets(); an AttributeError is logged and dropped *)
  let! _ := try_except (let! _ := fs_call st list_filesets in ret tt)
              (fun e => if is_AttributeError e then ret tt else raise e) in
  let! fileset_name :=
    match fileset_name with
    | Some (String c n) => ret (String c n)
    | _ => let! v := vo in ret (vsc_id v)
    end in
  let! fileset_group_owner_id :=
    match group_owner_id with
    | Some g => if Z.eqb g 0 then let! v := vo in ret (vsc_id_number v) else ret g
    | None => let! v := vo in ret (vsc_id_number v)
    end in
  (* [filesystem_name] is unbound when [storage.filesystem] was missing *)
  let! filesystem_name :=
    match filesystem st with
    | Some f => ret f
    | None => raise UnboundLocalError
    end in
  let! info := fs_call st (get_fileset_info filesystem_name fileset_name) in
  let! _ :=
    if negb (truth info) then
      let base_dir_hierarchy := os_path_dirname path in
      let! _ := fs_call st (make_dir base_dir_hierarchy) in
      (* with or without the parent fileset, for GPFS older than 3.5 *)
      let! _ := fs_call st (make_fileset path fileset_name parent_fileset) in
      ret tt
    else
      let! v := vo in                                (* read for the log line *)
      ret tt in
  let! _ := fs_call st (chmod 504 path) in           (* 0o770 *)
  let! moderator :=
    try_except
      (let! v := vo in
       match moderators v with
       | [] => raise IndexError
       | m0 :: _ =>
           let! r := do_call (Rest (account_get m0)) in
           let! a := as_group r in
           ret (Some a)
       end)
      (fun e => if is_HTTPError e then ret None
              else if is_IndexError e then ret None
              else raise e) in
  match moderator with
  | None =>
      let! r := do_call (getpwnam "nobody") in
      let! uid := as_int r in
      let! _ := fs_call st (chown uid fileset_group_owner_id path) in
      ret tt
  | Some m =>
      let! _ := fs_call st (chown (group_vsc_id_number m) fileset_group_owner_id path) in
      ret tt
  end.

Definition create_data_fileset : M St unit :=
  let! path := _data_path in
  let! o := get_self in
  match storage_of (host_institute o) (VSC_DATA cfg) with
  | Raise e => if is_KeyError e then ret tt (* logged *) else raise e
  | Ok st => _create_fileset st path None None None
  end.

Definition create_data_shared_fileset : M St unit :=
  let! path := _data_shared_path in
  let! o := get_self in
  match storage_of (host_institute o) (VSC_DATA_SHARED cfg) with
  | Raise e => if is_KeyError e then ret tt (* logged *) else raise e
  | Ok st =>
      let! g1 := sharing_group in
      let! name := match g1 with
                   | Some g => ret (group_vsc_id g)
                   | None => raise AttributeError
                   end in
      let! g2 := sharing_group in
      let! number := match g2 with
                     | Some g => ret (group_vsc_id_number g)
                     | None => raise AttributeError
                     end in
      _create_fileset st path None (Some name) (Some number)
  end.

Definition create_scratch_fileset (storage_name : string) : M St unit :=
  let! path := _scratch_path storage_name in
  let! o := get_self in
  let! st :=
    match storage_of (host_institute o) storage_name with
    | Raise e => if is_KeyError e then raise UnboundLocalError else raise e
    | Ok st' => ret st'
    end in
  if String.eqb (backend st) "gpfs" then
    if tuple_ge (version st) [3; 5; 0; 0]%Z
    then _create_fileset st path None None None
    else _create_fileset st path (Some "root") None None
  else _create_fileset st path None None None.

(** [_create_vo_dir(path, storage_name)]; a [KeyError] is logged and
    dropped. *)
Definition _create_vo_dir (path storage_name : string) : M St unit :=
  let! o := get_self in
  match storage_of (host_institute o) storage_name with
  | Raise e => if is_KeyError e then ret tt (* logged *) else raise e
  | Ok st =>
      let! _ := fs_call st (make_dir path) in
      ret tt
  end.

(** [int(x)] of a rational [n / d]: rounds towards zero. *)
Definition int_of_ratio (n : Z) (d : positive) : Z := Z.quot n (Zpos d).

(** The limits in bytes that [_set_quota] and [_set_member_quota] compute
    from a quota in KiB. *)
Definition hard_limit (st : Storage) (quota : Z) : Z :=
  let hard := (quota * 1024)%Z in
  if String.eqb (backend st) "gpfs" then (hard * data_replication_factor st)%Z else hard.

Definition soft_limit (hard : Z) : Z :=
  int_of_ratio (hard * quota_soft_num cfg) (quota_soft_den cfg).

Definition _set_quota (storage_name path : string) (quota : Z)
    (fileset_name : option string) : M St unit :=
  let! fileset_name :=
    match fileset_name with
    | Some (String c n) => ret (String c n)
    | _ => let! v := vo in ret (vsc_id v)
    end in
  let! o := get_self in
  let! st :=
    match storage_of (host_institute o) storage_name with
    | Raise e => if is_KeyError e then raise UnboundLocalError else raise e
    | Ok st' => ret st'
    end in
  let hard := hard_limit st quota in
  let soft := soft_limit hard in
  (* a backend error is logged and re-raised *)
  let! _ := fs_call st (set_fileset_quota soft path fileset_name (Some hard)) in
  let! _ := fs_call st (set_fileset_grace path (vo_storage_grace_time cfg)) in
  ret tt.

Definition set_data_quota : M St unit :=
  let! q := vo_data_quota in
  if negb (Z.eqb q 0) then
    let! path := _data_path in
    let! q' := vo_data_quota in
    _set_quota (VSC_DATA cfg) path q' None
  else
    let! path := _data_path in
    _set_quota (VSC_DATA cfg) path (16 * 1024) None.

Definition set_data_shared_quota : M St unit :=
  let! q := vo_data_shared_quota in
  match q with
  | Some z =>
      if Z.eqb z 0 then ret tt
      else
        let! path := _data_shared_path in
        let! q' := vo_data_shared_quota in
        let! quota := match q' with
                      | Some z' => ret z'
                      | None => raise TypeError      (* int(None) *)
                      end in
        let! name := shared_name in
        _set_quota (VSC_DATA_SHARED cfg) path quota (Some name)
  | None => ret tt
  end.

Definition set_scratch_quota (storage_name : string) : M St unit :=
  let! qs := vo_scratch_quota in
  let quota := List.filter (fun q => String.eqb (q_storage_name q) storage_name) qs in
  match quota with
  | [] =>
      let! v := vo in
      let! v' := vo in
      let! _ := lift (storage_quota_vo storage_name) in     (* read for the log line *)
      let! path := _scratch_path storage_name in
      let! q := lift (storage_quota_vo storage_name) in
      _set_quota storage_name path q None
  | [q] =>
      let! v := vo in
      let! path := _scratch_path storage_name in
      _set_quota storage_name path (hard q) None
  | _ :: _ :: _ =>
      raise RuntimeError                             (* a bare [raise] *)
  end.

Definition _set_member_quota (storage_name path : string) (member : User) (quota : Z)
    : M St unit :=
  let! o := get_self in
  let! st :=
    match storage_of (host_institute o) storage_name with
    | Raise e => if is_KeyError e then raise UnboundLocalError else raise e
    | Ok st' => ret st'
    end in
  let hard := hard_limit st quota in
  let soft := soft_limit hard in
  (* a backend error is logged and re-raised *)
  let! _ := fs_call st (set_user_quota soft (group_vsc_id_number (account member)) path hard) in
  ret tt.

Definition set_member_data_quota (member : User) : M St unit :=
  let! q := vo_data_quota in
  if Z.eqb q 0 then
    let! v := vo in ret tt                           (* warning logged *)
  else
    let! v := vo in
    if bool_decide (vsc_id v ∈ DEFAULT_VOS_ALL cfg) then
      let! v' := vo in ret tt                        (* warning logged *)
    else
      match user_vo_data_quota member with
      | [] => let! v' := vo in ret tt                (* error logged *)
      | mq =>
          let! v' := vo in
          let quota :=
            List.filter (fun q => String.eqb (fileset q) (vsc_id v')
                                  && negb (endswith (q_storage_name q) (STORAGE_SHARED_SUFFIX cfg)))
                        mq in
          match quota with
          | _ :: _ :: _ => raise RuntimeError        (* a bare [raise] *)
          | [] => let! v'' := vo in raise IndexError (* quota[0] *)
          | [q0] =>
              let! v'' := vo in
              let! path := _data_path in
              _set_member_quota (VSC_DATA cfg) path member (hard q0)
          end
      end.

Definition set_member_scratch_quota (storage_name : string) (member : User) : M St unit :=
  let! qs := vo_scratch_quota in
  match qs with
  | [] => let! v := vo in ret tt                     (* warning logged *)
  | _ =>
      let! v := vo in
      if bool_decide (vsc_id v ∈ DEFAULT_VOS_ALL cfg) then
        let! v' := vo in ret tt                      (* warning logged *)
      else
        let! o := get_self in
        match user_vo_scratch_quota member with
        | [] => let! v' := vo in ret tt              (* error logged *)
        | mq =>
            let quota :=
              List.filter (fun q => String.eqb (q_storage_name q) storage_name
                                    && String.eqb (fileset q) (vo_id o))
                          mq in
            match quota with
            | q0 :: _ =>
                let! v' := vo in
                let! path := _scratch_path storage_name in
                _set_member_quota storage_name path member (hard q0)
            | [] => let! v' := vo in ret tt          (* error logged *)
            end
        end
  end.

(** [_create_member_dir(member, target, storage_name)], reached with a
    storage name. *)
Definition _create_member_dir (member : User) (target storage_name : string) : M St unit :=
  let! o := get_self in
  let! st :=
    match storage_of (host_institute o) storage_name with
    | Raise e => if is_KeyError e then raise UnboundLocalError else raise e
    | Ok st' => ret st'
    end in
  let! _ := fs_call st (create_stat_directory target 448   (* 0o700 *)
                          (group_vsc_id_number (account member))
                          (group_vsc_id_number (usergroup member))
                          false) in
  ret tt.

(** [_create_member_dir(member, target, VSC_PRODUCTION_SCRATCH)]: the third
    argument is the dictionary of scratch storages itself, and a dictionary
    cannot be used as a key. *)
Definition _create_member_dir_by_dict (member : User) (target : string) : M St unit :=
  let! o := get_self in
  match storage cfg !! host_institute o with
  | None => raise UnboundLocalError                  (* KeyError logged; [fs_backend] unbound *)
  | Some _ => raise TypeError
  end.

Definition create_member_data_dir (member : User) : M St unit :=
  let! path := _data_path in
  let target := os_path_join path (user_id member) in
  _create_member_dir member target (VSC_DATA cfg).

Definition create_member_scratch_dir (storage_name : string) (member : User) : M St unit :=
  let! path := _scratch_path storage_name in
  let target := os_path_join path (user_id member) in
  _create_member_dir_by_dict member target.

(** [update_vo_status(vo)] *)
Definition update_vo_status : M St unit :=
  let! o := get_self in
  if dry_run o then
    let! v := vo in ret tt                           (* status read for the log line *)
  else
    let! v := vo in
    if negb (bool_decide (status v ∈ [NEW cfg; MODIFIED cfg; MODIFY cfg])) then
      let! v' := vo in ret tt                        (* "not changing" *)
    else
      let! response :=
        try_except (do_call (Rest (vo_patch (vo_id o) (ACTIVE cfg))))
          (fun e => if is_HTTPError e
                  then raise TypeError  (* the message has two placeholders, one value *)
                  else raise e) in
      let! virtual_organisation := as_vo response in
      if String.eqb (status virtual_organisation) (ACTIVE cfg) then ret tt
      else raise UserStatusUpdateError.

(** [VscTier2AccountpageVo(vo_id, rest_client=client, host_institute=...)]:
    the configuration objects and the backend operators are built, every
    storage of the institute gets its operator, and the caches are empty. *)
Definition new_vo (id institute : string) : M St unit :=
  let! _ := do_call (new_VscTier2AccountpageVo id institute) in
  match storage cfg !! institute with
  | None => raise KeyError
  | Some (PlainStorage _) => raise AttributeError
  | Some (InstituteStorage _) => modify_self (fun _ => fresh_vo id institute)
  end.

(** *** [process_vos] *)

(** The two dictionaries [process_vos] fills. *)
Record Results : Type := {
  ok_vos : gmap string pyobj;
  error_vos : gmap string pyobj;
}.

(** A method of the VO object, run by the driver: it cannot touch the
    dictionaries. *)
Definition method {A} (m : M St A) : M (Results * St) A :=
  fun rs => let '(x, s') := m (snd rs) in (x, (fst rs, s')).

(** [ok_vos[key] = value] and [error_vos[key] = value] *)
Definition ok_vos_setitem (key : string) (value : pyobj) : M (Results * St) unit :=
  fun rs => match MonoidDict_setitem (ok_vos (fst rs)) key value with
            | Ok d => (Ok tt, ({| ok_vos := d; error_vos := error_vos (fst rs) |}, snd rs))
            | Raise e => (Raise e, rs)
            end.

Definition error_vos_setitem (key : string) (value : pyobj) : M (Results * St) unit :=
  fun rs => match MonoidDict_setitem (error_vos (fst rs)) key value with
            | Ok d => (Ok tt, ({| ok_vos := ok_vos (fst rs); error_vos := d |}, snd rs))
            | Raise e => (Raise e, rs)
            end.

Section Driver.

Variable options_dry_run : bool.
Variable storage_name : string.
Variable datestamp : string.
Variable institute : string.                         (* [host_institute] *)

Definition factory (vid : string) : M St User :=
  let! r := do_call (new_VscTier2AccountpageUser vid institute) in
  as_user r.

(** The statements of the inner [try] before [ok_vos[vo.vo_id] = ...]. *)
Definition provision_member (member : User) : M St unit :=
  let! _ := do_call (user_set_dry_run (user_id member) options_dry_run) in
  let! _ :=
    if String.eqb storage_name (VSC_DATA cfg) then
      let! _ := set_member_data_quota member in
      create_member_data_dir member
    else ret tt in
  let! scratch := lift (getitem (VSC_PRODUCTION_SCRATCH cfg) institute) in
  if bool_decide (storage_name ∈ scratch) then
    let! _ := set_member_scratch_quota storage_name member in
    create_member_scratch_dir storage_name member
  else ret tt.

(** One round of [for member in modified_members]. *)
Definition process_member (member : User) : M (Results * St) unit :=
  try_except
    (let! _ := method (provision_member member) in
     let! o := method get_self in
     ok_vos_setitem (vo_id o) (PyList [group_vsc_id (account member)]))
    (fun _ =>
       let! o := method get_self in
       error_vos_setitem (vo_id o) (PyList [group_vsc_id (account member)])).

(** The outer [try] block; a [continue] ends it. *)
Definition provision_vo (id : string) : M (Results * St) unit :=
  if String.eqb storage_name (VSC_HOME cfg) then ret tt
  else
    let! _ :=
      method
        (if String.eqb storage_name (VSC_DATA cfg)
            && negb (bool_decide (id ∈ DEFAULT_VOS_ALL cfg))
         then
           let! _ := create_data_fileset in
           let! _ := set_data_quota in
           update_vo_status
         else ret tt) in
    let! _ :=
      method
        (if String.eqb storage_name (VSC_DATA_SHARED cfg)
            && negb (bool_decide (id ∈ DEFAULT_VOS_ALL cfg))
         then
           let! ds := data_sharing in
           if ds then
             let! _ := create_data_shared_fileset in
             set_data_shared_quota
           else ret tt
         else ret tt) in
    let! by_institute := lift (getitem (INSTITUTE_VOS_BY_INSTITUTE cfg) institute) in
    let! institute_vo := lift (getitem by_institute institute) in
    if String.eqb id institute_vo then ret tt
    else
      let! scratch := lift (getitem (VSC_PRODUCTION_SCRATCH cfg) institute) in
      let! _ :=
        method
          (if bool_decide (storage_name ∈ scratch) then
             let! _ := create_scratch_fileset storage_name in
             set_scratch_quota storage_name
           else ret tt) in
      if bool_decide (id ∈ DEFAULT_VOS_ALL cfg)
         && (String.eqb storage_name (VSC_HOME cfg) || String.eqb storage_name (VSC_DATA cfg))
      then ret tt
      else
        let! o := method get_self in
        let! r := method (do_call (Rest (vo_member_modified_get (vo_id o) datestamp))) in
        let! modified_member_list := method (as_ids r) in
        let! modified_members := method (map_each factory modified_member_list) in
        for_each process_member modified_members.

(** One round of [for vo_id in sorted(vo_ids)]. *)
Definition process_vo (id : string) : M (Results * St) unit :=
  let! _ := method (new_vo id institute) in
  let! _ := method (modify_self (set_dry_run options_dry_run)) in
  try_except (provision_vo id)
    (fun _ =>
       let! o := method get_self in
       (* [error_vos[vo.vo_id] = vo.members]: the method is not called *)
       error_vos_setitem (vo_id o) (PyBoundMethod (vo_id o) "members")).

(** [sorted(vo_ids)] *)
Definition sorted (ids : list string) : list string := merge_sort String.le ids.

Definition process_vos (vo_ids : list string) : M St Results :=
  fun s =>
    let start := ({| ok_vos := ∅; error_vos := ∅ |}, s) in
    match for_each process_vo (sorted vo_ids) start with
    | (Ok _, (res, s')) => (Ok res, s')
    | (Raise e, (_, s')) => (Raise e, s')
    end.

End Driver.

End Methods.

Arguments St W : clear implicits.

End Vo.

(** ** project.py *)

Module Project.

Import Vo.

(** A [MukProject] after [__init__]: the project and its group as the
    account page served them, the quota chosen there, and what [Muk()] and
    [VscStorage()] say about the scratch storage. *)
Record MukProject : Type := {
  project_id : string;
  submitter : option VscGroup;                       (* [self.project.submitter] *)
  group : VscGroup;                                  (* [self.group] *)
  project_scratch_quota : Z;
  scratch_name : string;                             (* [self.muk.scratch_name] *)
  gpfs_mount_point : string;
  login_mount_point : string;
  (** [self.storage.path_templates[self.muk.storage_name]['project']] *)
  template : string * (string → string);
  gpfs_dry_run : bool;                               (* [self.gpfs.dry_run] *)
}.

Section Methods.

Context {W : Type} `{!World W}.

(** The state of a project method: the world and the calls issued so far. *)
Definition St : Type := W * list event.

Definition gpfs_call (self : MukProject) (m : fs_method) : M St value :=
  fun s => let '(r, w') := perform (Backend GpfsOperations (gpfs_dry_run self) m) (fst s) in
           (r, (w', (snd s ++ [(Backend GpfsOperations (gpfs_dry_run self) m, r)])%list)).

Definition os_call (c : call) : M St value :=
  fun s => let '(r, w') := perform c (fst s) in (r, (w', (snd s ++ [(c, r)])%list)).

Definition _scratch_path (self : MukProject) (mount_point : string) : M St string :=
  let! mount_path :=
    if String.eqb mount_point "login" then ret (login_mount_point self)
    else if String.eqb mount_point "gpfs" then ret (gpfs_mount_point self)
    else raise (OtherException "Exception") in
  ret (os_path_join (os_path_join mount_path (fst (template self)))
                    (snd (template self) (project_id self))).

Definition create_scratch_fileset (self : MukProject) : M St unit :=
  let! _ := gpfs_call self list_filesets in
  let fileset_name := project_id self in
  let filesystem_name := scratch_name self in
  let! path := _scratch_path self "gpfs" in
  let! info := gpfs_call self (get_fileset_info filesystem_name fileset_name) in
  let! _ :=
    if negb (truth info) then
      let base_dir_hierarchy := os_path_dirname path in
      let! _ := gpfs_call self (make_dir base_dir_hierarchy) in
      let! _ := gpfs_call self (make_fileset path fileset_name None) in
      ret tt
    else ret tt in
  let! _ := gpfs_call self (chmod 504 path) in       (* 0770 *)
  let! _ :=
    match submitter self with
    | Some sub =>
        gpfs_call self (chown (group_vsc_id_number sub) (group_vsc_id_number (group self)) path)
    | None =>
        let! r := os_call (getpwnam "nobody") in
        let! uid := match r with VInt z => ret z | _ => raise TypeError end in
        gpfs_call self (chown uid (group_vsc_id_number (group self)) path)
    end in
  let! _ := gpfs_call self (set_fileset_quota (project_scratch_quota self) path fileset_name None) in
  ret tt.

End Methods.

End Project.

(** ** bin/sync_muk_projects.py *)

Module SyncMukProjects.

Import Vo.

Section Run.

Context {W : Type} `{!World W}.

(** [process_project(options, project)]: [Muk()] hands back the
    configuration singleton the project was built with, and the bare
    [except:] catches whatever [create_scratch_fileset] raises. *)
Definition process_project (project : Project.MukProject) : M (Project.St (W := W)) bool :=
  try_except
    (let! _ := Project.create_scratch_fileset project in
     ret true)
    (fun _ => ret false).                            (* logged *)

End Run.

End SyncMukProjects.

Local Open Scope list_scope.

(** * Definitions used in the statements *)


(** *** Calls and logs of the VO methods *)

(** A read of the account page. *)
Definition is_read (c : Vo.call) : Prop :=
  match c with
  | Vo.Rest (Vo.vo_patch _ _) => False
  | Vo.Rest _ => True
  | _ => False
  end.

(** The calls a method of a VO object can issue: backend methods, account
    page requests and the password database. *)
Definition method_call (c : Vo.call) : Prop :=
  match c with
  | Vo.Backend _ _ _ | Vo.Rest _ | Vo.getpwnam _ => True
  | _ => False
  end.

(** The backend methods among a list of events, in order. *)
Definition backend_methods (evs : list Vo.event) : list Vo.fs_method :=
  omap (fun ev => match ev.1 with
                  | Vo.Backend _ _ m => Some m
                  | _ => None
                  end) evs.

(** The status patches sent to the account page among a list of events. *)
Definition patches (evs : list Vo.event) : list (string * string) :=
  omap (fun ev => match ev.1 with
                  | Vo.Rest (Vo.vo_patch id st) => Some (id, st)
                  | _ => None
                  end) evs.


(** The members whose provisioning was started among a list of events. *)
Definition started (evs : list Vo.event) : list string :=
  omap (fun ev => match ev.1 with
                  | Vo.user_set_dry_run vid _ => Some vid
                  | _ => None
                  end) evs.

(** [s'] extends [s]: the log grew by calls in [Q], and the identity and
    the dry-run flag of the VO object are the same. *)
Definition ext {W} (Q : Vo.call → Prop) (s s' : Vo.St W) : Prop :=
  (∃ evs, Vo.log s' = Vo.log s ++ evs ∧ Forall (fun ev => Q ev.1) evs)
  ∧ Vo.vo_id (Vo.self s') = Vo.vo_id (Vo.self s)
  ∧ Vo.host_institute (Vo.self s') = Vo.host_institute (Vo.self s)
  ∧ Vo.dry_run (Vo.self s') = Vo.dry_run (Vo.self s).

Definition only {W A} (Q : Vo.call → Prop) (m : M (Vo.St W) A) : Prop :=
  ∀ s, ext Q s (m s).2.

Definition cache_update (f : Vo.VscTier2AccountpageVo → Vo.VscTier2AccountpageVo) : Prop :=
  ∀ o, Vo.vo_id (f o) = Vo.vo_id o
       ∧ Vo.host_institute (f o) = Vo.host_institute o
       ∧ Vo.dry_run (f o) = Vo.dry_run o.

(** *** Logs *)

(** A state that carries a log of events. *)
Class HasLog (S : Type) : Type := log_of : S → list Vo.event.

#[global] Instance St_has_log {W} : HasLog (Vo.St W) := Vo.log.

#[global] Instance driver_has_log {W} : HasLog (Vo.Results * Vo.St W) :=
  fun rs => Vo.log rs.2.

#[global] Instance project_has_log {W} : HasLog (Project.St (W := W)) := snd.

(** The events a computation adds to the log when run in [s]. *)
Definition new_events {S A} `{!HasLog S} (m : M S A) (s : S) : list Vo.event :=
  drop (length (log_of s)) (log_of (m s).2).

(** [m] only appends to the log, and result and new events satisfy [Φ]. *)
Definition emits {S A} `{!HasLog S} (m : M S A)
    (Φ : result A → list Vo.event → Prop) : Prop :=
  ∀ s, ∃ evs, log_of (m s).2 = log_of s ++ evs ∧ Φ (m s).1 evs.

(** The truth values of the answers [get_fileset_info] gave. *)
Definition info_answers (evs : list Vo.event) : list bool :=
  omap (fun ev => match ev with
                  | (Vo.Backend _ _ (Vo.get_fileset_info _ _), Ok v) => Some (Vo.truth v)
                  | _ => None
                  end) evs.

(** [emits], seen through the backend methods called and the answers of
    [get_fileset_info]. *)
Definition traces {S A} `{!HasLog S} (m : M S A)
    (T : result A → list Vo.fs_method → list bool → Prop) : Prop :=
  emits m (fun r evs => T r (backend_methods evs) (info_answers evs)).


(** The backend methods a fileset creation may call, by what
    [get_fileset_info] answered: nothing (the run stopped before or at the
    question), present, or absent.  [extra] is what follows the [chown]. *)
Definition fileset_trace (path : string) (parent : option string)
    (extra : string → list Vo.fs_method)
    (r : result unit) (ms : list Vo.fs_method) (answers : list bool) : Prop :=
  ∃ fs name uid gid,
    let probe := [Vo.list_filesets; Vo.get_fileset_info fs name] in
    let create := [Vo.make_dir (os_path_dirname path); Vo.make_fileset path name parent] in
    let finish := [Vo.chmod 504 path; Vo.chown uid gid path] ++ extra name in
    (answers = [] ∧ ms `prefix_of` probe ∧ r ≠ Ok tt)
    ∨ (answers = [true] ∧ ms `prefix_of` probe ++ finish
       ∧ (r = Ok tt → ms = probe ++ finish))
    ∨ (answers = [false] ∧ ms `prefix_of` probe ++ create ++ finish
       ∧ (r = Ok tt → ms = probe ++ create ++ finish)).

(** The path [MukProject._scratch_path()] computes. *)
Definition project_path (p : Project.MukProject) : string :=
  os_path_join (os_path_join (Project.gpfs_mount_point p) (fst (Project.template p)))
               (snd (Project.template p) (Project.project_id p)).


(** *** A small site, for closed examples

    One institute with a data storage on GPFS (replicated twice) and one
    scratch storage, the default VO [gvo00012], and an account page that
    serves every VO with the same shape.  Creating the member directory of
    the account numbered 2540002 fails on the backend, and the account page
    is down for the VO [gvo00002]. *)

Definition site_data : Vo.Storage :=
  {| Vo.backend := "gpfs"; Vo.filesystem := Some "kyukondata";
     Vo.version := [5; 0; 0; 0]%Z; Vo.data_replication_factor := 2;
     Vo.login_mount_point := "/user/data"; Vo.backend_mount_point := "/kyukon/data";
     Vo.quota_vo := 100; Vo.api := [] |}.

Definition site_scratch : Vo.Storage :=
  {| Vo.backend := "gpfs"; Vo.filesystem := Some "kyukonscratch";
     Vo.version := [5; 0; 0; 0]%Z; Vo.data_replication_factor := 1;
     Vo.login_mount_point := "/user/scratch"; Vo.backend_mount_point := "/kyukon/scratch";
     Vo.quota_vo := 100; Vo.api := [] |}.

Definition site : Vo.Config :=
  {| Vo.VSC_HOME := "VSC_HOME"; Vo.VSC_DATA := "VSC_DATA";
     Vo.VSC_DATA_SHARED := "VSC_DATA_SHARED";
     Vo.NEW := "new"; Vo.MODIFIED := "modified"; Vo.MODIFY := "modify";
     Vo.ACTIVE := "active";
     Vo.DATA_KEY := "data"; Vo.SCRATCH_KEY := "scratch";
     Vo.DEFAULT_VOS_ALL := ["gvo00012"];
     Vo.VSC_PRODUCTION_SCRATCH := {[ "gent" := ["VSC_SCRATCH_KYUKON"] ]};
     Vo.INSTITUTE_VOS_BY_INSTITUTE := {[ "gent" := {[ "gent" := "gvo00012" ]} ]};
     Vo.VO_PREFIX_BY_INSTITUTE := {[ "gent" := "gvo" ]};
     Vo.VO_SHARED_PREFIX_BY_INSTITUTE := {[ "gent" := "gvosh" ]};
     Vo.STORAGE_SHARED_SUFFIX := "_SHARED";
     Vo.quota_soft_num := 19; Vo.quota_soft_den := 20;
     Vo.vo_storage_grace_time := 604800;
     Vo.storage :=
       {[ "gent" := Vo.InstituteStorage
                      (<["VSC_DATA" := site_data]>
                         {[ "VSC_SCRATCH_KYUKON" := site_scratch ]}) ]};
     Vo.path_templates :=
       {[ "gent" := <["VSC_DATA" := fun id => ("gent/vo/" ++ id, id)%string]>
                      {[ "VSC_SCRATCH_KYUKON" := fun id => ("gent/vo/" ++ id, id)%string ]} ]} |}.

Definition site_quota (storage_name storage_type fileset : string) (kib : Z) : Vo.VscQuota :=
  {| Vo.q_storage_name := storage_name; Vo.q_storage_institute := "gent";
     Vo.q_storage_type := storage_type; Vo.hard := kib; Vo.fileset := fileset |}.

Definition site_user (id : string) (number : Z) : Vo.User :=
  {| Vo.user_id := id;
     Vo.account := {| Vo.group_vsc_id := id; Vo.group_vsc_id_number := number |};
     Vo.usergroup := {| Vo.group_vsc_id := id; Vo.group_vsc_id_number := number |};
     Vo.user_vo_data_quota := [site_quota "VSC_DATA" "data" "gvo00001" 50];
     Vo.user_vo_scratch_quota := [] |}.

Definition site_vo (id status : string) : Vo.VscVo :=
  {| Vo.vsc_id := id; Vo.vsc_id_number := 2600001; Vo.status := status;
     Vo.vo_members := ["vsc40001"; "vsc40002"; "vsc40003"];
     Vo.moderators := ["vsc40001"]; Vo.institute_name := "gent" |}.

(** The world has no state of its own; [served] is the list of modified
    members the account page serves for every VO. *)
Definition site_world (served : list string) : Vo.World unit :=
  fun c w =>
    (match c with
     | Vo.Rest (Vo.vo_get "gvo00002") => Raise (HTTPError 503)
     | Vo.Rest (Vo.vo_get id) => Ok (Vo.VVo (site_vo id "new"))
     | Vo.Rest (Vo.vo_quota_get id) =>
         Ok (Vo.VQuota [site_quota "VSC_DATA" "data" id 1000;
                        site_quota "VSC_SCRATCH_KYUKON" "scratch" id 2000;
                        site_quota "VSC_SCRATCH_KYUKON" "scratch" id 3000])
     | Vo.Rest (Vo.vo_patch id st) => Ok (Vo.VVo (site_vo id st))
     | Vo.Rest (Vo.vo_member_modified_get _ _) => Ok (Vo.VIds served)
     | Vo.Rest (Vo.account_get id) =>
         Ok (Vo.VGroup {| Vo.group_vsc_id := id; Vo.group_vsc_id_number := 2540001 |})
     | Vo.Rest (Vo.autogroup_get id) =>
         Ok (Vo.VGroup {| Vo.group_vsc_id := id; Vo.group_vsc_id_number := 2640001 |})
     | Vo.new_VscTier2AccountpageUser "vsc40001" _ => Ok (Vo.VUser (site_user "vsc40001" 2540001))
     | Vo.new_VscTier2AccountpageUser id _ => Ok (Vo.VUser (site_user id 2540002))
     | Vo.Backend _ _ (Vo.create_stat_directory _ _ 2540002 _ _) => Raise (BackendError "mkdir")
     | Vo.Backend _ _ (Vo.get_fileset_info _ _) => Ok Vo.VNone
     | Vo.getpwnam _ => Ok (Vo.VInt 65534)
     | _ => Ok Vo.VNone
     end, w).

(** A run starts with an empty log; the object in [self] is the VO [id]. *)
Definition site_state (id : string) : Vo.St unit :=
  {| Vo.world := tt; Vo.log := []; Vo.self := Vo.fresh_vo id "gent" |}.

(** A member of the default VO with two data quota records for it. *)
Definition site_member_two_records : Vo.User :=
  {| Vo.user_id := "vsc40001";
     Vo.account := {| Vo.group_vsc_id := "vsc40001"; Vo.group_vsc_id_number := 2540001 |};
     Vo.usergroup := {| Vo.group_vsc_id := "vsc40001"; Vo.group_vsc_id_number := 2540001 |};
     Vo.user_vo_data_quota := [site_quota "VSC_DATA" "data" "gvo00012" 50;
                               site_quota "VSC_DATA" "data" "gvo00012" 60];
     Vo.user_vo_scratch_quota := [] |}.


(** *** The result dictionaries of [process_vos] *)







(** Every call but the construction of a VO object. *)
Definition not_construction (c : Vo.call) : Prop :=
  match c with
  | Vo.new_VscTier2AccountpageVo _ _ => False
  | _ => True
  end.

(** The same for a computation of the driver, which carries the result
    dictionaries next to the state of the VO object. *)
Definition only_driver {W A} (Q : Vo.call → Prop)
    (m : M (Vo.Results * Vo.St W) A) : Prop :=
  ∀ rs, ext Q rs.2 (m rs).2.2.

(** Every call but the start of a member's provisioning. *)
Definition not_start (c : Vo.call) : Prop :=
  match c with
  | Vo.user_set_dry_run _ _ => False
  | _ => True
  end.

(** *** Lines of a dump *)

(** ["|".join(values)] *)
Fixpoint join_fields (vs : list string) : string :=
  match vs with
  | [] => ""
  | v :: vs' =>
      match vs' with
      | [] => v
      | _ :: _ => (v ++ "|" ++ join_fields vs')%string
      end
  end.

(** [c in s] *)
Fixpoint has_char (c : ascii) (s : string) : bool :=
  match s with
  | EmptyString => false
  | String c' s' => Ascii.eqb c' c || has_char c s'
  end.

(** [s] consists of white space only. *)
Fixpoint all_space (s : string) : bool :=
  match s with
  | EmptyString => true
  | String c s' => isspace c && all_space s'
  end.

(** The record a data line with the values [vs] stands for under the
    header of [SacctJobsFields]: a column without a value is [None]. *)
Definition record_of (vs : list string) : Sacct.info :=
  Some {| Sacct.JobID := vs !! 0%nat; Sacct.JobName := vs !! 1%nat;
          Sacct.Partition := vs !! 2%nat; Sacct.Account := vs !! 3%nat;
          Sacct.AllocCPUS := vs !! 4%nat; Sacct.State := vs !! 5%nat;
          Sacct.ExitCode := vs !! 6%nat |}.

(** *** The dry-run option *)

(** What a call may be when the dry-run option is [d]: a backend call goes
    through an operator whose flag is [d], a member object is given the flag
    [d], and a status patch is sent only when [d] is off. *)
Definition respects_dry_run (d : bool) (c : Vo.call) : Prop :=
  match c with
  | Vo.Backend _ d' _ => d' = d
  | Vo.user_set_dry_run _ v => v = d
  | Vo.Rest (Vo.vo_patch _ _) => d = false
  | _ => True
  end.

(** Run from a VO object whose flag is [d], [m] issues calls that respect
    it. *)
Definition only_when {W A} (d : bool) (m : M (Vo.St W) A) : Prop :=
  ∀ s, Vo.dry_run (Vo.self s) = d → ext (respects_dry_run d) s (m s).2.

Definition only_driver_when {W A} (d : bool) (m : M (Vo.Results * Vo.St W) A) : Prop :=
  ∀ rs, Vo.dry_run (Vo.self rs.2) = d → ext (respects_dry_run d) rs.2 (m rs).2.2.

(** The construction of a VO object. *)
Definition is_construction (c : Vo.call) : Prop :=
  match c with
  | Vo.new_VscTier2AccountpageVo _ _ => True
  | _ => False
  end.

(** *** Keys of the result dictionaries *)

(** [m] keeps the identity of the VO object and leaves the entries of the
    other VOs in both dictionaries as they are. *)
Definition writes_own_entries {W A} (m : M (Vo.Results * Vo.St W) A) : Prop :=
  ∀ rs,
    Vo.vo_id (Vo.self (m rs).2.2) = Vo.vo_id (Vo.self rs.2)
    ∧ ∀ k, k ≠ Vo.vo_id (Vo.self rs.2) →
        Vo.ok_vos (m rs).2.1 !! k = Vo.ok_vos rs.1 !! k
        ∧ Vo.error_vos (m rs).2.1 !! k = Vo.error_vos rs.1 !! k.

(** The keys of both dictionaries are among [ids]. *)
Definition keys_within (res : Vo.Results) (ids : list string) : Prop :=
  ∀ k, is_Some (Vo.ok_vos res !! k) ∨ is_Some (Vo.error_vos res !! k) → k ∈ ids.



(** *** Caches of the VO object *)

(** [m] keeps a VO record that is in the cache. *)
Definition keeps_vo {W A} (m : M (Vo.St W) A) : Prop :=
  ∀ s v, Vo._vo_cache (Vo.self s) = Some v → Vo._vo_cache (Vo.self (m s).2) = Some v.

(** * slurm/sacct.py: parsing a dump *)

Section SacctFacts.

Import Sacct.

Variable creator : gmap string string → result info.


(** The records of a parsed dump are the true values the lines parse to,
    on top of what was collected before. *)
Lemma parse_lines_elem_of header it ls acc s :
  parse_slurm_sacct_lines creator header it ls acc = Ok s →
  ∀ j, j ∈ s ↔ j ∈ acc ∨
       (truthy j = true ∧
        ∃ l, l ∈ ls ∧ parse_slurm_sacct_line creator header (rstrip l) it = Ok j).
Proof.
  revert acc. induction ls as [|l ls IH]; intros acc; simpl.
  - intros [= <-] j. split; [by left|]. intros [?|(_ & l & Hl & _)]; [done|].
    by apply elem_of_nil in Hl.
  - destruct (parse_slurm_sacct_line creator header (rstrip l) it) as [i|e] eqn:El; [|done].
    destruct (truthy i) eqn:Ei; intros Hs j; rewrite (IH _ Hs j).
    + rewrite elem_of_union, elem_of_singleton. split.
      * intros [[->|?]|(? & l' & ? & ?)]; [right|by left|right].
        -- split; [done|]. exists l. split; [left|done].
        -- split; [done|]. exists l'. split; [by right|done].
      * intros [?|(? & l' & [->|?]%elem_of_cons & Hp)]; [left; by right| |].
        -- left; left. congruence.
        -- right. split; [done|]. by exists l'.
    + split.
      * intros [?|(? & l' & ? & ?)]; [by left|right].
        split; [done|]. exists l'. split; [by right|done].
      * intros [?|(Hj & l' & [->|?]%elem_of_cons & Hp)]; [by left| |].
        -- congruence.
        -- right. split; [done|]. by exists l'.
Qed.


End SacctFacts.

(** With the library's creator, the [jobs] selector never fails. *)
Lemma parse_lines_jobs_total header ls acc :
  ∃ s, Sacct.parse_slurm_sacct_lines Sacct.mkNamedTupleInstance_SlurmJobs header
         Sacct.SacctTypes_jobs ls acc = Ok s.
Proof.
  revert acc. induction ls as [|l ls IH]; intros acc; simpl; [by eexists|]. apply IH.
Qed.

(** C5, as the code has it: an unknown record-type selector makes the dump
    raise a parse error at the first data line, whatever the creator does,
    and no record set is returned; the number of values of a line is not
    compared with the number of header columns, and with the library's
    creator a dump for the [jobs] selector always yields a record set. *)
Theorem parse_slurm_sacct_dump_errors :
  (∀ creator line0 l rest repr,
     Sacct.parse_slurm_sacct_dump creator (line0 :: l :: rest) (Sacct.OtherSelector repr)
     = Raise SacctParseException)
  ∧ (∀ line0 data,
       ∃ s, Sacct.parse_slurm_sacct_dump Sacct.mkNamedTupleInstance_SlurmJobs
              (line0 :: data) Sacct.SacctTypes_jobs = Ok s).
Proof.
  split; [reflexivity|]. intros. apply parse_lines_jobs_total.
Qed.

(** C5 fails as stated: a data line with one value under a header of two
    columns is parsed into a record, and nothing is raised. *)
Lemma sacct_count_mismatch_is_parsed :
  length (split "|"%char (rstrip "1")) ≠ length (Sacct.sacct_header "JobID|State")
  ∧ Sacct.parse_slurm_sacct_dump Sacct.mkNamedTupleInstance_SlurmJobs
      ["JobID|State"; "1"] Sacct.SacctTypes_jobs
    = Ok {[ Some (Sacct.mkSlurmJobsTuple (Some "1") None None None None None None) ]}.
Proof.
  split; [by compute|].
  unfold Sacct.parse_slurm_sacct_dump.
  cbn [Sacct.parse_slurm_sacct_lines Sacct.parse_slurm_sacct_line Sacct.mkSlurmJobs
       Sacct.mkNamedTupleInstance_SlurmJobs Sacct.truthy].
  change (negb (length Sacct.SacctJobsFields =? 0)%nat) with true. cbv iota.
  rewrite union_empty_r_L. do 3 f_equal; by vm_compute.
Qed.


(** * sync_slurm_acct.py: running the commands *)

Section ExecuteCommands.

Import SyncSlurmAcct.

Context {W : Type}.
Variable RunQA_run : list string → W → Z * W.

Lemma execute_commands_spec commands w ran :
  ∀ r w' ran',
    execute_commands RunQA_run commands w ran = (r, w', ran') →
    ∃ new,
      ran' = (ran ++ new)%list
      ∧ (∃ post, commands = (map fst new ++ post)%list
                 ∧ (r = Ok tt → post = []))
      ∧ (∀ pre c ec, new = (pre ++ [(c, ec)])%list → Forall (fun x => x.2 = 0%Z) pre)
      ∧ (r = Ok tt → Forall (fun x => x.2 = 0%Z) new)
      ∧ (∀ e, r = Raise e →
           ∃ pre c ec, new = (pre ++ [(c, ec)])%list ∧ ec ≠ 0%Z
                       ∧ e = SacctMgrException c).
Proof.
  revert w ran. induction commands as [|c cs IH]; intros w ran r w' ran'; simpl.
  - intros [= <- <- <-]. exists []. rewrite app_nil_r.
    repeat split; [by exists []| |done|done].
    intros pre c ec Hnil. by destruct pre.
  - destruct (RunQA_run c w) as [ec w1] eqn:Erun.
    destruct (Z.eqb_spec ec 0) as [->|Hne]; simpl.
    + intros Hrec. destruct (IH _ _ _ _ _ Hrec) as (new & -> & (post & -> & Hpost) & Hpre & Hok & Hraise).
      exists ((c, 0%Z) :: new). rewrite <- app_assoc. simpl.
      repeat split.
      * by exists post.
      * intros pre c' ec' Heq. destruct pre as [|p pre]; [done|].
        injection Heq as <- Heq. constructor; [done|]. by eapply Hpre.
      * intros Hr. constructor; [done|]. by apply Hok.
      * intros e He. destruct (Hraise e He) as (pre & c' & ec' & -> & ? & ?).
        by exists ((c, 0%Z) :: pre), c', ec'.
    + intros [= <- <- <-]. exists [(c, ec)]. repeat split.
      * by exists cs.
      * intros pre c' ec' Heq. destruct pre as [|p [|? pre]]; [done|done|done].
      * done.
      * intros e [= <-]. by exists [], c, ec.
Qed.

(** C8: the commands are run in the order of the list; the run stops at
    the first command whose exit code is not zero, raises for that command,
    and runs none of the commands after it; when nothing is raised every
    command was run and exited with zero. *)
Theorem execute_commands_stops_at_first_failure commands w :
  ∀ r w' ran,
    execute_commands RunQA_run commands w [] = (r, w', ran) →
    (∃ post, commands = (map fst ran ++ post)%list)
    ∧ (r = Ok tt → map fst ran = commands ∧ Forall (fun x => x.2 = 0%Z) ran)
    ∧ (∀ e, r = Raise e →
         ∃ pre c ec post,
           commands = (map fst pre ++ c :: post)%list
           ∧ ran = (pre ++ [(c, ec)])%list
           ∧ Forall (fun x => x.2 = 0%Z) pre
           ∧ ec ≠ 0%Z
           ∧ e = SacctMgrException c).
Proof.
  intros r w' ran Hrun.
  destruct (execute_commands_spec _ _ _ _ _ _ Hrun)
    as (new & -> & (post & Hc & Hpost) & Hpre & Hok & Hraise). simpl.
  repeat split.
  - by exists post.
  - rewrite Hc, (Hpost H), app_nil_r. done.
  - by apply Hok.
  - intros e He. destruct (Hraise e He) as (pre & c & ec & -> & Hec & ->).
    exists pre, c, ec, post. repeat split; [|by eapply Hpre|done].
    rewrite Hc, map_app, <- app_assoc. done.
Qed.

End ExecuteCommands.

(** * vo.py: what the methods may call *)

Section Frame.

Import Vo.

Context {W : Type} `{!World W}.

Lemma ext_refl Q (s : St W) : ext Q s s.
Proof. split; [exists []; by rewrite app_nil_r|done]. Qed.

Lemma ext_trans Q (s1 s2 s3 : St W) : ext Q s1 s2 → ext Q s2 s3 → ext Q s1 s3.
Proof.
  intros [(e1 & E1 & F1) (?&?&?)] [(e2 & E2 & F2) (?&?&?)]. split.
  - exists (e1 ++ e2). rewrite E2, E1, app_assoc. split; [done|by apply Forall_app].
  - repeat split; congruence.
Qed.

Lemma ext_mono (Q Q' : call → Prop) (s s' : St W) :
  (∀ c, Q c → Q' c) → ext Q s s' → ext Q' s s'.
Proof.
  intros HQ [(evs & ? & F) ?]. split; [|done].
  exists evs; split; [done|]. eapply Forall_impl; [done|]. intros ev. apply HQ.
Qed.

Lemma only_ret {A} Q (a : A) : only Q (@ret (St W) A a).
Proof. intros s. apply ext_refl. Qed.

Lemma only_raise {A} Q e : only Q (@raise (St W) A e).
Proof. intros s. apply ext_refl. Qed.

Lemma only_lift {A} Q (r : result A) : only Q (@lift (St W) A r).
Proof. intros s. apply ext_refl. Qed.

Lemma only_get_self Q : only Q (@get_self W).
Proof. intros s. apply ext_refl. Qed.

Lemma only_bind {A B} Q (m : M (St W) A) (k : A → M (St W) B) :
  only Q m → (∀ a, only Q (k a)) → only Q (bind m k).
Proof.
  intros Hm Hk s. unfold bind. specialize (Hm s).
  destruct (m s) as [[a|e] s1]; simpl in *; [|done].
  eapply ext_trans; [done|]. apply Hk.
Qed.

Lemma only_try {A} Q (m : M (St W) A) (h : exn → M (St W) A) :
  only Q m → (∀ e, only Q (h e)) → only Q (try_except m h).
Proof.
  intros Hm Hk s. unfold try_except. specialize (Hm s).
  destruct (m s) as [[a|e] s1]; simpl in *; [done|].
  eapply ext_trans; [done|]. apply Hk.
Qed.

Lemma only_do_call (Q : call → Prop) c : Q c → only Q (do_call c).
Proof.
  intros Hc s. unfold do_call. destruct (perform c (world s)) as [r w'] eqn:E. simpl.
  split; [|done]. eexists; split; [done|]. by constructor.
Qed.

Lemma only_mono {A} (Q Q' : call → Prop) (m : M (St W) A) :
  (∀ c, Q c → Q' c) → only Q m → only Q' m.
Proof. intros HQ Hm s. eapply ext_mono; [done|apply Hm]. Qed.

Lemma only_modify_self Q f : cache_update f → only Q (@modify_self W f).
Proof. intros Hf s. split; [exists []; by rewrite app_nil_r|apply Hf]. Qed.

Lemma only_for_each {A} Q (f : A → M (St W) unit) l :
  (∀ a, only Q (f a)) → only Q (for_each f l).
Proof. intros Hf. induction l; simpl; [apply only_ret|]. apply only_bind; auto. Qed.

Lemma only_map_each {A B} Q (f : A → M (St W) B) l :
  (∀ a, only Q (f a)) → only Q (map_each f l).
Proof.
  intros Hf. induction l; simpl; [apply only_ret|].
  apply only_bind; [auto|]. intros. apply only_bind; [auto|]. intros; apply only_ret.
Qed.

Lemma is_read_method_call c : is_read c → method_call c.
Proof. by destruct c as [| [] | | | |]. Qed.

End Frame.

Ltac only_step :=
  match goal with
  | |- only _ (bind _ _) => apply only_bind; [|intros]
  | |- only _ (try_except _ _) => apply only_try; [|intros]
  | |- only _ (ret _) => apply only_ret
  | |- only _ (raise _) => apply only_raise
  | |- only _ (lift _) => apply only_lift
  | |- only _ Vo.get_self => apply only_get_self
  | |- only _ (Vo.modify_self _) => apply only_modify_self; by intros []
  | |- only _ (Vo.do_call _) => apply only_do_call; exact I
  | |- only _ (Vo.fs_call _ _) => unfold Vo.fs_call
  | |- only _ (Vo.as_vo _) => unfold Vo.as_vo
  | |- only _ (Vo.as_quota _) => unfold Vo.as_quota
  | |- only _ (Vo.as_group _) => unfold Vo.as_group
  | |- only _ (Vo.as_ids _) => unfold Vo.as_ids
  | |- only _ (Vo.as_user _) => unfold Vo.as_user
  | |- only _ (Vo.as_int _) => unfold Vo.as_int
  | |- only _ (match ?x with _ => _ end) => destruct x
  | |- only _ (if ?x then _ else _) => destruct x
  | |- only _ (let _ := _ in _) => cbv zeta
  | H : _ |- only _ _ =>
      solve [apply H | eapply only_mono; [apply is_read_method_call|apply H]]
  end.

Ltac only_tac := repeat only_step.

Section FrameMethods.

Import Vo.

Context {W : Type} `{!World W}.

Variable cfg : Config.

Lemma only_vo : only is_read (@vo W _).
Proof. unfold vo. only_tac. Qed.

Lemma only_institute_quota : only is_read (@_institute_quota W _).
Proof. pose proof only_vo. unfold _institute_quota. only_tac. Qed.

Lemma only_get_institute_data_quota : only is_read (_get_institute_data_quota cfg).
Proof. pose proof only_institute_quota. unfold _get_institute_data_quota. only_tac. Qed.

Lemma only_vo_data_quota : only is_read (vo_data_quota cfg).
Proof.
  pose proof only_get_institute_data_quota.
  unfold vo_data_quota, _get_institute_non_shared_data_quota. only_tac.
Qed.

Lemma only_vo_data_shared_quota : only is_read (vo_data_shared_quota cfg).
Proof.
  pose proof only_get_institute_data_quota.
  unfold vo_data_shared_quota, _get_institute_shared_data_quota. only_tac.
Qed.

Lemma only_vo_scratch_quota : only is_read (vo_scratch_quota cfg).
Proof. pose proof only_institute_quota. unfold vo_scratch_quota. only_tac. Qed.

Lemma only_data_sharing : only is_read (data_sharing cfg).
Proof. pose proof only_vo_data_shared_quota. unfold data_sharing. only_tac. Qed.

Lemma only_shared_name : only is_read (shared_name cfg).
Proof. pose proof only_vo. unfold shared_name. only_tac. Qed.

Lemma only_sharing_group : only is_read (sharing_group cfg).
Proof.
  pose proof only_data_sharing. pose proof only_shared_name.
  unfold sharing_group. only_tac.
Qed.

Lemma only_members : only is_read (@members W _).
Proof. pose proof only_vo. unfold members. only_tac. Qed.

Lemma only_get_path sn mp : only is_read (_get_path cfg sn mp).
Proof. pose proof only_vo. unfold _get_path. only_tac. Qed.

Lemma only_create_fileset st p a b c : only method_call (_create_fileset st p a b c).
Proof. pose proof only_vo. unfold _create_fileset. only_tac. Qed.

Lemma only_create_data_fileset : only method_call (create_data_fileset cfg).
Proof.
  pose proof only_get_path. pose proof only_create_fileset.
  unfold create_data_fileset, _data_path. only_tac.
Qed.

Lemma only_create_data_shared_fileset : only method_call (create_data_shared_fileset cfg).
Proof.
  pose proof only_get_path. pose proof only_create_fileset. pose proof only_sharing_group.
  unfold create_data_shared_fileset, _data_shared_path. only_tac.
Qed.

Lemma only_create_scratch_fileset sn : only method_call (create_scratch_fileset cfg sn).
Proof.
  pose proof only_get_path. pose proof only_create_fileset.
  unfold create_scratch_fileset, _scratch_path. only_tac.
Qed.

Lemma only_set_quota sn p q f : only method_call (_set_quota cfg sn p q f).
Proof. pose proof only_vo. unfold _set_quota. only_tac. Qed.

Lemma only_set_data_quota : only method_call (set_data_quota cfg).
Proof.
  pose proof only_get_path. pose proof only_set_quota. pose proof only_vo_data_quota.
  unfold set_data_quota, _data_path. only_tac.
Qed.

Lemma only_set_data_shared_quota : only method_call (set_data_shared_quota cfg).
Proof.
  pose proof only_get_path. pose proof only_set_quota. pose proof only_vo_data_shared_quota.
  pose proof only_shared_name.
  unfold set_data_shared_quota, _data_shared_path. only_tac.
Qed.

Lemma only_set_scratch_quota sn : only method_call (set_scratch_quota cfg sn).
Proof.
  pose proof only_get_path. pose proof only_set_quota. pose proof only_vo_scratch_quota.
  pose proof only_vo.
  unfold set_scratch_quota, _scratch_path. only_tac.
Qed.

Lemma only_set_member_quota sn p m q : only method_call (_set_member_quota cfg sn p m q).
Proof. unfold _set_member_quota. only_tac. Qed.

Lemma only_set_member_data_quota m : only method_call (set_member_data_quota cfg m).
Proof.
  pose proof only_get_path. pose proof only_set_member_quota. pose proof only_vo_data_quota.
  pose proof only_vo.
  unfold set_member_data_quota, _data_path. only_tac.
Qed.

Lemma only_set_member_scratch_quota sn m : only method_call (set_member_scratch_quota cfg sn m).
Proof.
  pose proof only_get_path. pose proof only_set_member_quota. pose proof only_vo_scratch_quota.
  pose proof only_vo.
  unfold set_member_scratch_quota, _scratch_path. only_tac.
Qed.

Lemma only_create_member_data_dir m : only method_call (create_member_data_dir cfg m).
Proof.
  pose proof only_get_path.
  unfold create_member_data_dir, _create_member_dir, _data_path. only_tac.
Qed.

Lemma only_create_member_scratch_dir sn m : only method_call (create_member_scratch_dir cfg sn m).
Proof.
  pose proof only_get_path.
  unfold create_member_scratch_dir, _create_member_dir_by_dict, _scratch_path. only_tac.
Qed.

Lemma only_update_vo_status : only method_call (update_vo_status cfg).
Proof. pose proof only_vo. unfold update_vo_status. only_tac. Qed.

End FrameMethods.

(** * Rules for logs *)

Section Emits.

Context {S : Type} `{!HasLog S}.

Lemma new_events_eq {A} (m : M S A) s evs :
  log_of (m s).2 = log_of s ++ evs → new_events m s = evs.
Proof. intros E. unfold new_events. by rewrite E, drop_app_length. Qed.

Lemma emits_new_events {A} (m : M S A) Φ s : emits m Φ → Φ (m s).1 (new_events m s).
Proof. intros Hm. destruct (Hm s) as (evs & E & HΦ). by rewrite (new_events_eq _ _ _ E). Qed.

Lemma emits_ret {A} (a : A) (Φ : result A → list Vo.event → Prop) :
  Φ (Ok a) [] → emits (@ret S A a) Φ.
Proof. intros H s. exists []. by rewrite app_nil_r. Qed.

Lemma emits_raise {A} e (Φ : result A → list Vo.event → Prop) :
  Φ (Raise e) [] → emits (@raise S A e) Φ.
Proof. intros H s. exists []. by rewrite app_nil_r. Qed.

Lemma emits_lift {A} (r : result A) (Φ : result A → list Vo.event → Prop) :
  Φ r [] → emits (@lift S A r) Φ.
Proof. intros H s. exists []. by rewrite app_nil_r. Qed.

Lemma emits_bind {A B} (m : M S A) (k : A → M S B) Ψ Φ :
  emits m Ψ →
  (∀ a evs1, Ψ (Ok a) evs1 → emits (k a) (fun r evs2 => Φ r (evs1 ++ evs2))) →
  (∀ e evs1, Ψ (Raise e) evs1 → Φ (Raise e) evs1) →
  emits (bind m k) Φ.
Proof.
  intros Hm Hk He s. unfold bind. destruct (Hm s) as (evs1 & E1 & H1).
  destruct (m s) as [[a|e] s1]; simpl in *.
  - destruct (Hk a evs1 H1 s1) as (evs2 & E2 & H2).
    exists (evs1 ++ evs2). by rewrite E2, E1, app_assoc.
  - exists evs1. split; [done|]. by apply He.
Qed.

Lemma emits_try {A} (m : M S A) (h : exn → M S A) Ψ Φ :
  emits m Ψ →
  (∀ a evs1, Ψ (Ok a) evs1 → Φ (Ok a) evs1) →
  (∀ e evs1, Ψ (Raise e) evs1 → emits (h e) (fun r evs2 => Φ r (evs1 ++ evs2))) →
  emits (try_except m h) Φ.
Proof.
  intros Hm Hk He s. unfold try_except. destruct (Hm s) as (evs1 & E1 & H1).
  destruct (m s) as [[a|e] s1]; simpl in *.
  - exists evs1. split; [done|]. by apply Hk.
  - destruct (He e evs1 H1 s1) as (evs2 & E2 & H2).
    exists (evs1 ++ evs2). by rewrite E2, E1, app_assoc.
Qed.

Lemma emits_conseq {A} (m : M S A) (Ψ Φ : result A → list Vo.event → Prop) :
  emits m Ψ → (∀ r evs, Ψ r evs → Φ r evs) → emits m Φ.
Proof. intros Hm HΦ s. destruct (Hm s) as (evs & ? & ?). exists evs. auto. Qed.

Lemma backend_methods_app a b :
  backend_methods (a ++ b) = backend_methods a ++ backend_methods b.
Proof. apply omap_app. Qed.

Lemma info_answers_app a b : info_answers (a ++ b) = info_answers a ++ info_answers b.
Proof. apply omap_app. Qed.

Lemma no_backend_methods evs :
  Forall (fun ev : Vo.event => match ev.1 with Vo.Backend _ _ _ => False | _ => True end) evs →
  backend_methods evs = [] ∧ info_answers evs = [].
Proof.
  induction evs as [|[c r] evs IH]; intros HF; [done|].
  inversion_clear HF as [|?? Hc HF']. specialize (IH HF').
  destruct c; simpl in Hc; try done; exact IH.
Qed.

Lemma reads_no_backend evs :
  Forall (fun ev : Vo.event => is_read ev.1) evs →
  backend_methods evs = [] ∧ info_answers evs = [].
Proof.
  intros HF. apply no_backend_methods. eapply Forall_impl; [done|].
  by intros [[| [] | | | |] ?].
Qed.

Lemma traces_bind {A B} (m : M S A) (k : A → M S B) Ψ T :
  traces m Ψ →
  (∀ a ms1 as1, Ψ (Ok a) ms1 as1 →
     traces (k a) (fun r ms2 as2 => T r (ms1 ++ ms2) (as1 ++ as2))) →
  (∀ e ms1 as1, Ψ (Raise e) ms1 as1 → T (Raise e) ms1 as1) →
  traces (bind m k) T.
Proof.
  intros Hm Hk He. eapply emits_bind; [exact Hm| |].
  - intros a evs1 H1. eapply emits_conseq; [apply (Hk _ _ _ H1)|].
    intros r evs2. by rewrite backend_methods_app, info_answers_app.
  - intros e evs1. apply He.
Qed.

Lemma traces_try {A} (m : M S A) (h : exn → M S A) Ψ T :
  traces m Ψ →
  (∀ a ms1 as1, Ψ (Ok a) ms1 as1 → T (Ok a) ms1 as1) →
  (∀ e ms1 as1, Ψ (Raise e) ms1 as1 →
     traces (h e) (fun r ms2 as2 => T r (ms1 ++ ms2) (as1 ++ as2))) →
  traces (try_except m h) T.
Proof.
  intros Hm Hk He. eapply emits_try; [exact Hm| |].
  - intros a evs1. apply Hk.
  - intros e evs1 H1. eapply emits_conseq; [apply (He _ _ _ H1)|].
    intros r evs2. by rewrite backend_methods_app, info_answers_app.
Qed.

Lemma traces_ret {A} (a : A) (T : result A → list Vo.fs_method → list bool → Prop) :
  T (Ok a) [] [] → traces (@ret S A a) T.
Proof. intros H. by apply emits_ret. Qed.

Lemma traces_raise {A} e (T : result A → list Vo.fs_method → list bool → Prop) :
  T (Raise e) [] [] → traces (@raise S A e) T.
Proof. intros H. by apply emits_raise. Qed.

Lemma traces_bind_ret {A B} (a : A) (k : A → M S B) T :
  traces (k a) T → traces (bind (ret a) k) T.
Proof. intros H s. apply H. Qed.

Lemma traces_bind_raise {A B} e (k : A → M S B)
    (T : result B → list Vo.fs_method → list bool → Prop) :
  T (Raise e) [] [] → traces (bind (raise e) k) T.
Proof. intros H s. exists []. by rewrite app_nil_r. Qed.

Lemma traces_conseq {A} (m : M S A)
    (Ψ T : result A → list Vo.fs_method → list bool → Prop) :
  traces m Ψ → (∀ r ms ans, Ψ r ms ans → T r ms ans) → traces m T.
Proof. intros Hm HT. eapply emits_conseq; [exact Hm|]. intros r evs. apply HT. Qed.

End Emits.

(** * Filesets are created only when absent *)

Section FilesetTrace.

Import Vo.

Lemma fileset_trace_early path parent extra fs name r ms :
  ms `prefix_of` [list_filesets; get_fileset_info fs name] → r ≠ Ok tt →
  fileset_trace path parent extra r ms [].
Proof. intros ??. exists fs, name, 0%Z, 0%Z. by left. Qed.

Lemma fileset_trace_created path parent extra fs name r ms :
  ms `prefix_of` [make_dir (os_path_dirname path); make_fileset path name parent] →
  r ≠ Ok tt →
  fileset_trace path parent extra r (list_filesets :: get_fileset_info fs name :: ms) [false].
Proof.
  intros [k Hk] ?. exists fs, name, 0%Z, 0%Z. right; right. split; [done|]. split; [|done].
  simpl. do 2 apply prefix_cons. exists (k ++ [chmod 504 path; chown 0 0 path] ++ extra name).
  rewrite app_assoc, <- Hk. done.
Qed.

Lemma fileset_trace_tail path parent extra fs name uid gid (b : bool) r ms :
  let create := [make_dir (os_path_dirname path); make_fileset path name parent] in
  let finish := [chmod 504 path; chown uid gid path] ++ extra name in
  ms `prefix_of` finish → (r = Ok tt → ms = finish) →
  fileset_trace path parent extra r
    (list_filesets :: get_fileset_info fs name :: (if b then [] else create) ++ ms) [b].
Proof.
  intros create finish Hp Hr. exists fs, name, uid, gid.
  destruct b; [right; left|right; right]; (split; [done|]); simpl; split.
  - by do 2 apply prefix_cons.
  - intros ->%Hr. done.
  - by do 4 apply prefix_cons.
  - intros ->%Hr. done.
Qed.


Section VoFileset.

Context {W : Type} `{!World W}.

Lemma traces_reads {A} (m : M (St W) A) :
  only is_read m → traces m (fun _ ms ans => ms = [] ∧ ans = []).
Proof.
  intros Hm s. destruct (Hm s) as [(evs & ? & HF) _]. exists evs. split; [done|].
  by apply reads_no_backend.
Qed.

Lemma traces_fs_call st c :
  traces (fs_call st c)
    (fun r ms ans =>
       ms = [c] ∧ ans = match c, r with
                        | get_fileset_info _ _, Ok v => [truth v]
                        | _, _ => []
                        end).
Proof.
  intros s. unfold fs_call, bind, get_self, do_call.
  destruct (perform _ (world s)) as [r w]. simpl. eexists. split; [done|].
  split; [done|]. by destruct c, r.
Qed.

Lemma traces_call_no_backend c :
  match c with Backend _ _ _ => False | _ => True end →
  traces (do_call c) (fun _ ms ans => ms = [] ∧ ans = []).
Proof.
  intros Hc s. unfold do_call. destruct (perform _ (world s)) as [r w]. simpl.
  eexists. split; [done|]. by destruct c.
Qed.

Lemma traces_create_fileset st path parent fsn gid :
  traces (_create_fileset st path parent fsn gid)
    (fileset_trace path parent (fun _ => [])).
Proof.
  pose proof (@only_vo W _) as Hvo. unfold _create_fileset.
  (* list_filesets *)
  eapply (traces_bind _ _ (fun r ms ans => ms = [list_filesets] ∧ ans = [])).
  { eapply (traces_try _ _ (fun r ms ans => ms = [list_filesets] ∧ ans = [])).
    - eapply traces_bind; [apply traces_fs_call| |].
      + intros _ ?? [-> ->]. by apply traces_ret.
      + by intros e ?? [-> ->].
    - done.
    - intros e ?? [-> ->].
      destruct (is_AttributeError e); [by apply traces_ret|by apply traces_raise]. }
  2:{ intros e ?? [-> ->]. apply (fileset_trace_early _ _ _ "" ""); [by eexists|done]. }
  intros _ ?? [-> ->].
  (* the name and the group *)
  eapply traces_bind; [apply traces_reads; only_tac| |].
  2:{ intros e ?? [-> ->]. apply (fileset_trace_early _ _ _ "" ""); [by eexists|done]. }
  intros name ?? [-> ->].
  eapply traces_bind; [apply traces_reads; only_tac| |].
  2:{ intros e ?? [-> ->]. apply (fileset_trace_early _ _ _ "" ""); [by eexists|done]. }
  intros owner ?? [-> ->].
  destruct (filesystem st) as [fs|].
  2:{ apply traces_bind_raise. apply (fileset_trace_early _ _ _ "" ""); [by eexists|done]. }
  apply traces_bind_ret.
  (* get_fileset_info *)
  eapply traces_bind; [apply traces_fs_call| |].
  2:{ intros e ?? [-> ->]. apply (fileset_trace_early _ _ _ fs name); [by eexists []|done]. }
  intros info ?? [-> ->].
  (* make_dir and make_fileset, or nothing *)
  eapply (traces_bind _ _
            (fun r ms ans =>
               ans = []
               ∧ if truth info then ms = []
                 else ms `prefix_of` [make_dir (os_path_dirname path);
                                      make_fileset path name parent]
                      ∧ (r = Ok tt → ms = [make_dir (os_path_dirname path);
                                           make_fileset path name parent]))).
  { destruct (truth info); simpl.
    - eapply traces_conseq; [apply traces_reads; only_tac|]. by intros ??? [-> ->].
    - eapply traces_bind; [apply traces_fs_call| |].
      + intros _ ?? [-> ->]. eapply traces_bind; [apply traces_fs_call| |].
        * intros _ ?? [-> ->]. apply traces_ret. split; [done|]. split; [by eexists []|done].
        * intros e ?? [-> ->]. split; [done|]. split; [by eexists []|done].
      + intros e ?? [-> ->]. split; [done|]. split; [by eexists [_]|done]. }
  2:{ intros e ms1 as1 [-> Hms]. simpl. destruct (truth info).
      - subst ms1. apply (fileset_trace_tail _ _ _ _ _ 0%Z 0%Z true _ []); [by eexists|done].
      - destruct Hms as [? _]. by apply fileset_trace_created. }
  intros [] ms1 as1 [-> Hms].
  assert (ms1 = if truth info then []
                else [make_dir (os_path_dirname path); make_fileset path name parent]) as ->.
  { destruct (truth info); [done|]. by apply Hms. }
  clear Hms.
  (* chmod *)
  eapply traces_bind; [apply traces_fs_call| |].
  2:{ intros e ?? [-> ->]. simpl.
      apply (fileset_trace_tail _ _ _ _ _ 0%Z owner); [by eexists [_]|done]. }
  intros _ ?? [-> ->].
  (* the moderator *)
  eapply traces_bind; [apply traces_reads; only_tac| |].
  2:{ intros e ?? [-> ->]. simpl.
      apply (fileset_trace_tail _ _ _ _ _ 0%Z owner); [by eexists [_]|done]. }
  intros [m|] ?? [-> ->].
  - eapply traces_bind; [apply traces_fs_call| |].
    + intros _ ?? [-> ->]. apply traces_ret. simpl.
      by apply (fileset_trace_tail _ _ _ _ _ (group_vsc_id_number m) owner).
    + intros e ?? [-> ->]. simpl.
      by apply (fileset_trace_tail _ _ _ _ _ (group_vsc_id_number m) owner).
  - eapply traces_bind; [apply traces_call_no_backend; exact I| |].
    2:{ intros e ?? [-> ->]. simpl.
        apply (fileset_trace_tail _ _ _ _ _ 0%Z owner); [by eexists [_]|done]. }
    intros r ?? [-> ->]. unfold as_int. destruct r.
    all: try (apply traces_bind_raise; simpl;
              apply (fileset_trace_tail _ _ _ _ _ 0%Z owner); [by eexists [_]|done]).
    apply traces_bind_ret.
    eapply traces_bind; [apply traces_fs_call| |].
    + intros _ ?? [-> ->]. apply traces_ret. simpl.
      by apply (fileset_trace_tail _ _ _ _ _ z owner).
    + intros e ?? [-> ->]. simpl.
      by apply (fileset_trace_tail _ _ _ _ _ z owner).
Qed.

End VoFileset.


Section ProjectFileset.

Import Vo.

Context {W : Type} `{!World W}.

Lemma traces_gpfs_call (p : Project.MukProject) c :
  traces (Project.gpfs_call p c)
    (fun r ms ans =>
       ms = [c] ∧ ans = match c, r with
                        | get_fileset_info _ _, Ok v => [truth v]
                        | _, _ => []
                        end).
Proof.
  intros s. unfold Project.gpfs_call.
  destruct (perform _ s.1) as [r w]. simpl. eexists. split; [done|].
  split; [done|]. by destruct c, r.
Qed.

Lemma traces_os_call_no_backend c :
  match c with Backend _ _ _ => False | _ => True end →
  traces (Project.os_call (W := W) c) (fun _ ms ans => ms = [] ∧ ans = []).
Proof.
  intros Hc s. unfold Project.os_call. destruct (perform _ s.1) as [r w]. simpl.
  eexists. split; [done|]. by destruct c.
Qed.

Lemma traces_project_create_scratch_fileset (p : Project.MukProject) :
  traces (Project.create_scratch_fileset p)
    (fileset_trace (project_path p) None
       (fun name => [set_fileset_quota (Project.project_scratch_quota p)
                       (project_path p) name None])).
Proof.
  unfold Project.create_scratch_fileset.
  set (path := project_path p). set (name := Project.project_id p).
  set (fs := Project.scratch_name p). set (owner := group_vsc_id_number (Project.group p)).
  set (extra := fun name => [set_fileset_quota (Project.project_scratch_quota p) path name None]).
  (* list_filesets *)
  eapply traces_bind; [apply traces_gpfs_call| |].
  2:{ intros e ?? [-> ->]. apply (fileset_trace_early _ _ _ "" ""); [by eexists|done]. }
  intros _ ?? [-> ->].
  change (Project._scratch_path p "gpfs") with (@ret (Project.St (W := W)) _ path).
  apply traces_bind_ret.
  (* get_fileset_info *)
  eapply traces_bind; [apply traces_gpfs_call| |].
  2:{ intros e ?? [-> ->]. apply (fileset_trace_early _ _ _ fs name); [by eexists []|done]. }
  intros info ?? [-> ->].
  (* make_dir and make_fileset, or nothing *)
  eapply (traces_bind _ _
            (fun r ms ans =>
               ans = []
               ∧ if truth info then ms = []
                 else ms `prefix_of` [make_dir (os_path_dirname path);
                                      make_fileset path name None]
                      ∧ (r = Ok tt → ms = [make_dir (os_path_dirname path);
                                           make_fileset path name None]))).
  { destruct (truth info); simpl.
    - by apply traces_ret.
    - eapply traces_bind; [apply traces_gpfs_call| |].
      + intros _ ?? [-> ->]. eapply traces_bind; [apply traces_gpfs_call| |].
        * intros _ ?? [-> ->]. apply traces_ret. split; [done|]. split; [by eexists []|done].
        * intros e ?? [-> ->]. split; [done|]. split; [by eexists []|done].
      + intros e ?? [-> ->]. split; [done|]. split; [by eexists [_]|done]. }
  2:{ intros e ms1 as1 [-> Hms]. simpl. destruct (truth info).
      - subst ms1. apply (fileset_trace_tail _ _ _ _ _ 0%Z 0%Z true _ []); [by eexists|done].
      - destruct Hms as [? _]. by apply fileset_trace_created. }
  intros [] ms1 as1 [-> Hms].
  assert (ms1 = if truth info then []
                else [make_dir (os_path_dirname path); make_fileset path name None]) as ->.
  { destruct (truth info); [done|]. by apply Hms. }
  clear Hms.
  (* chmod *)
  eapply traces_bind; [apply traces_gpfs_call| |].
  2:{ intros e ?? [-> ->]. simpl.
      apply (fileset_trace_tail _ _ extra _ _ 0%Z owner); [by eexists [_; _]|done]. }
  intros _ ?? [-> ->].
  (* chown, then the quota *)
  eapply (traces_bind _ _
            (fun r ms ans => ans = [] ∧ ∃ uid,
               ms = [chown uid owner path] ∨ (ms = [] ∧ is_ok r = false))).
  { destruct (Project.submitter p) as [sub|].
    - eapply traces_conseq; [apply traces_gpfs_call|].
      intros r ms ans [-> ->]. split; [done|]. exists (group_vsc_id_number sub). by left.
    - eapply traces_bind; [apply traces_os_call_no_backend; exact I| |].
      + intros r ?? [-> ->]. destruct r.
        all: try (apply traces_bind_raise; split; [done|]; exists 0%Z; by right).
        apply traces_bind_ret. eapply traces_conseq; [apply traces_gpfs_call|].
        intros r ms ans [-> ->]. split; [done|]. exists z. by left.
      + intros e ?? [-> ->]. split; [done|]. exists 0%Z. by right. }
  2:{ intros e ms1 as1 [-> (uid & [->|[-> _]])]; simpl.
      - apply (fileset_trace_tail _ _ extra _ _ uid owner); [by eexists [_]|done].
      - apply (fileset_trace_tail _ _ extra _ _ uid owner); [by eexists [_; _]|done]. }
  intros _ ms1 as1 [-> (uid & [->|[_ [=]]])].
  eapply traces_bind; [apply traces_gpfs_call| |].
  - intros _ ?? [-> ->]. apply traces_ret. simpl.
    by apply (fileset_trace_tail _ _ extra _ _ uid owner).
  - intros e ?? [-> ->]. simpl.
    by apply (fileset_trace_tail _ _ extra _ _ uid owner).
Qed.

End ProjectFileset.



End FilesetTrace.

(** * Quota limits *)

Section QuotaLimits.

Import Vo.

Context {W : Type} `{!World W}.
Variable cfg : Config.






End QuotaLimits.

(** * Status transition *)

Section StatusTransition.

Import Vo.

Context {W : Type} `{!World W}.
Variable cfg : Config.

Lemma patches_app a b : patches (a ++ b) = patches a ++ patches b.
Proof. apply omap_app. Qed.

Lemma reads_no_patches evs :
  Forall (fun ev : event => is_read ev.1) evs → patches evs = [].
Proof.
  induction evs as [|[c r] evs IH]; intros HF; [done|].
  inversion_clear HF as [|?? Hc HF']. specialize (IH HF').
  destruct c as [| [] | | | |]; simpl in Hc; try done; exact IH.
Qed.

Lemma update_vo_status_run (s : St W) r s' :
  update_vo_status cfg s = (r, s') →
  ∃ evs, log s' = log s ++ evs
    ∧ patches evs =
        if dry_run (self s) then []
        else match (vo s).1 with
             | Ok v => if bool_decide (status v ∈ [NEW cfg; MODIFIED cfg; MODIFY cfg])
                       then [(vo_id (self s), ACTIVE cfg)] else []
             | Raise _ => []
             end.
Proof.
  pose proof (@only_vo W _) as Hvo.
  unfold update_vo_status. unfold bind at 1, get_self at 1.
  destruct (dry_run (self s)) eqn:Hdry.
  - unfold bind. pose proof (Hvo s) as [(evs & Hl & Hr) _].
    destruct (vo s) as [[v|e] s1]; simpl in *; intros [= <- <-];
      exists evs; by rewrite (reads_no_patches _ Hr).
  - unfold bind at 1. pose proof (Hvo s) as [(evs & Hl & Hr) (Hid & _ & _)].
    destruct (vo s) as [[v|e] s1]; simpl in *.
    2:{ intros [= <- <-]. exists evs. by rewrite (reads_no_patches _ Hr). }
    destruct (bool_decide (status v ∈ [NEW cfg; MODIFIED cfg; MODIFY cfg])); simpl.
    + unfold bind at 1, try_except, do_call.
      destruct (perform _ (world s1)) as [[resp|e] w1]; simpl.
      * intros Hrun.
        exists (evs ++ [(Rest (vo_patch (vo_id (self s)) (ACTIVE cfg)), Ok resp)]).
        rewrite app_assoc, <- Hl.
        rewrite patches_app, (reads_no_patches _ Hr). simpl.
        split; [|done].
        unfold as_vo, bind in Hrun.
        destruct resp; simpl in Hrun; try (by injection Hrun as <- <-).
        match type of Hrun with context [if ?b then _ else _] => destruct b end;
          by injection Hrun as <- <-.
      * intros Hrun.
        exists (evs ++ [(Rest (vo_patch (vo_id (self s)) (ACTIVE cfg)), Raise e)]).
        rewrite app_assoc, <- Hl.
        rewrite patches_app, (reads_no_patches _ Hr). simpl.
        split; [|done].
        destruct (is_HTTPError e); by injection Hrun as <- <-.
    + unfold bind. pose proof (Hvo s1) as [(evs2 & Hl2 & Hr2) _].
      destruct (vo s1) as [[v2|e2] s2]; simpl in *; intros [= <- <-];
        exists (evs ++ evs2); rewrite patches_app, (reads_no_patches _ Hr),
          (reads_no_patches _ Hr2), Hl2, Hl, app_assoc; done.
Qed.

(** C7: [update_vo_status] sends a status patch, setting [ACTIVE] for this
    VO, exactly when dry-run is off and the status the account page serves
    is one of [NEW], [MODIFIED], [MODIFY]; otherwise, and always in dry-run
    mode, it sends no patch. *)
Theorem update_vo_status_patches (s : St W) :
  let evs := new_events (update_vo_status cfg) s in
  (patches evs = [(vo_id (self s), ACTIVE cfg)] ∨ patches evs = [])
  ∧ (patches evs = [(vo_id (self s), ACTIVE cfg)] ↔
       dry_run (self s) = false
       ∧ ∃ v, (vo s).1 = Ok v ∧ status v ∈ [NEW cfg; MODIFIED cfg; MODIFY cfg]).
Proof.
  intros evs. subst evs.
  destruct (update_vo_status cfg s) as [r s'] eqn:Erun.
  destruct (update_vo_status_run _ _ _ Erun) as (evs & Hl & Hp).
  assert (new_events (update_vo_status cfg) s = evs) as ->.
  { apply new_events_eq. by rewrite Erun. }
  rewrite Hp. clear Hp. destruct (dry_run (self s)).
  { split; [by right|]. split; [done|]. by intros [[=] _]. }
  destruct (vo s).1 as [v|e].
  2:{ split; [by right|]. split; [done|]. by intros [_ (v & [=] & _)]. }
  case_bool_decide as Hin.
  - split; [by left|]. split; [|done]. intros _. split; [done|]. by exists v.
  - split; [by right|]. split; [done|]. intros [_ (v' & [= <-] & Hin')]. done.
Qed.

End StatusTransition.

(** * More than one matching quota record *)

Section MultipleQuota.

Import Vo.

Context {W : Type} `{!World W}.
Variable cfg : Config.

(** Once served, the VO is read from the cache. *)
Lemma vo_cached (s s1 : St W) v : vo s = (Ok v, s1) → vo s1 = (Ok v, s1).
Proof.
  unfold vo, bind, get_self. destruct (_vo_cache (self s)) as [v0|] eqn:Ec.
  - intros [= <- <-]. by rewrite Ec.
  - unfold do_call. destruct (perform _ (world s)) as [[resp|e] w1]; simpl; [|done].
    destruct resp; simpl; try done. by intros [= <- <-].
Qed.






End MultipleQuota.




(** * [process_vos]: members *)

Section Members.

Import Vo Missing.

Context {W : Type} `{!World W}.
Variable cfg : Config.
Variable dry : bool.
Variable storage_name datestamp institute : string.

Lemma method_call_not_construction c : method_call c → not_construction c.
Proof. by destruct c. Qed.

Lemma only_provision_member m :
  only not_construction (provision_member cfg dry storage_name institute m).
Proof.
  pose proof (only_set_member_data_quota cfg) as H1.
  pose proof (only_create_member_data_dir cfg) as H2.
  pose proof (only_set_member_scratch_quota cfg) as H3.
  pose proof (only_create_member_scratch_dir cfg) as H4.
  unfold provision_member.
  repeat first
    [ eapply only_mono; [apply method_call_not_construction|];
      solve [apply H1|apply H2|apply H3|apply H4]
    | apply only_ret
    | apply only_lift
    | apply only_do_call; exact I
    | match goal with |- only _ (if ?b then _ else _) => destruct b end
    | apply only_bind; [|intros] ].
Qed.








End Members.

Section DriverFrame.

Import Vo Missing.

Context {W : Type} `{!World W}.

Lemma only_driver_ret {A} Q (a : A) : only_driver Q (@ret (Results * St W) A a).
Proof. intros rs. apply ext_refl. Qed.

Lemma only_driver_lift {A} Q (r : result A) : only_driver Q (@lift (Results * St W) A r).
Proof. intros rs. apply ext_refl. Qed.

Lemma only_driver_bind {A B} Q (m : M (Results * St W) A) (k : A → M (Results * St W) B) :
  only_driver Q m → (∀ a, only_driver Q (k a)) → only_driver Q (bind m k).
Proof.
  intros Hm Hk rs. unfold bind. specialize (Hm rs).
  destruct (m rs) as [[a|e] rs1]; simpl in *; [|done].
  eapply ext_trans; [done|]. apply Hk.
Qed.

Lemma only_driver_try {A} Q (m : M (Results * St W) A) (h : exn → M (Results * St W) A) :
  only_driver Q m → (∀ e, only_driver Q (h e)) → only_driver Q (try_except m h).
Proof.
  intros Hm Hk rs. unfold try_except. specialize (Hm rs).
  destruct (m rs) as [[a|e] rs1]; simpl in *; [done|].
  eapply ext_trans; [done|]. apply Hk.
Qed.

Lemma only_driver_method {A} Q (m : M (St W) A) : only Q m → only_driver Q (method m).
Proof.
  intros Hm rs. unfold method. specialize (Hm rs.2).
  by destruct (m rs.2) as [r s1].
Qed.

Lemma only_driver_ok_vos_setitem Q k v : only_driver Q (@ok_vos_setitem W k v).
Proof.
  intros rs. unfold ok_vos_setitem.
  destruct (MonoidDict_setitem _ _ _); apply ext_refl.
Qed.

Lemma only_driver_error_vos_setitem Q k v : only_driver Q (@error_vos_setitem W k v).
Proof.
  intros rs. unfold error_vos_setitem.
  destruct (MonoidDict_setitem _ _ _); apply ext_refl.
Qed.

Lemma only_driver_for_each {A} Q (f : A → M (Results * St W) unit) l :
  (∀ a, only_driver Q (f a)) → only_driver Q (for_each f l).
Proof.
  intros Hf. induction l; simpl; [apply only_driver_ret|]. apply only_driver_bind; auto.
Qed.

Lemma only_driver_mono {A} (Q Q' : call → Prop) (m : M (Results * St W) A) :
  (∀ c, Q c → Q' c) → only_driver Q m → only_driver Q' m.
Proof. intros HQ Hm rs. eapply ext_mono; [done|apply Hm]. Qed.


Lemma only_driver_emits {A} Q (m : M (Results * St W) A) :
  only_driver Q m → emits m (fun _ evs => Forall (fun ev => Q ev.1) evs).
Proof. intros Hm rs. by destruct (Hm rs) as [? _]. Qed.

Lemma emits_do_call c (Φ : result value → list event → Prop) :
  (∀ r, Φ r [(c, r)]) → emits (@do_call W _ c) Φ.
Proof.
  intros HΦ s. unfold do_call. destruct (perform c (world s)) as [r w'].
  exists [(c, r)]. split; [done|apply HΦ].
Qed.

Lemma emits_method {A} (m : M (St W) A) Φ : emits m Φ → emits (method m) Φ.
Proof.
  intros Hm rs. unfold method. destruct (Hm rs.2) as (evs & E & HΦ).
  destruct (m rs.2) as [r s1]. by exists evs.
Qed.


Lemma started_none evs :
  Forall (fun ev : event => not_start ev.1) evs → started evs = [].
Proof.
  induction 1 as [|[c r] evs Hc _ IH]; [done|].
  destruct c; simpl in *; done.
Qed.



End DriverFrame.

Section DriverOrder.

Import Vo Missing.

Context {W : Type} `{!World W}.
Variable cfg : Config.
Variable dry : bool.
Variable storage_name datestamp institute : string.

Lemma only_process_member m :
  only_driver not_construction (process_member cfg dry storage_name institute m).
Proof.
  unfold process_member.
  apply only_driver_try; [|intros].
  - apply only_driver_bind; [|intros].
    + apply only_driver_method, only_provision_member.
    + apply only_driver_bind; [|intros].
      * apply only_driver_method, only_get_self.
      * apply only_driver_ok_vos_setitem.
  - apply only_driver_bind; [|intros].
    + apply only_driver_method, only_get_self.
    + apply only_driver_error_vos_setitem.
Qed.

Lemma only_factory vid : only not_construction (factory institute vid).
Proof.
  unfold factory. apply only_bind; [|intros].
  - by apply only_do_call.
  - unfold as_user. destruct a; first [apply only_ret|apply only_raise].
Qed.

Lemma only_provision_vo id :
  only_driver not_construction (provision_vo cfg dry storage_name datestamp institute id).
Proof.
  pose proof (only_create_data_fileset cfg) as H1.
  pose proof (only_set_data_quota cfg) as H2.
  pose proof (only_update_vo_status cfg) as H3.
  pose proof (only_data_sharing cfg) as H4.
  pose proof (only_create_data_shared_fileset cfg) as H5.
  pose proof (only_set_data_shared_quota cfg) as H6.
  pose proof (only_create_scratch_fileset cfg) as H7.
  pose proof (only_set_scratch_quota cfg) as H8.
  unfold provision_vo.
  repeat first
    [ apply only_driver_ret
    | apply only_driver_lift
    | apply only_driver_for_each; intros; apply only_process_member
    | apply only_driver_method
    | match goal with |- only_driver _ (if ?b then _ else _) => destruct b end
    | apply only_driver_bind; [|intros]
    | eapply only_mono; [apply method_call_not_construction|];
      solve [apply H1|apply H2|apply H3|apply H5|apply H6|apply H7|apply H8
            |eapply only_mono; [apply is_read_method_call|apply H4]]
    | apply only_map_each; intros; apply only_factory
    | apply only_get_self
    | apply only_ret
    | apply only_do_call; exact I
    | progress unfold as_ids
    | match goal with |- only _ (if ?b then _ else _) => destruct b end
    | match goal with |- only _ (match ?b with _ => _ end) => destruct b end
    | apply only_raise
    | apply only_bind; [|intros] ].
Qed.




End DriverOrder.

(** * [process_vos]: a VO that fails *)

Section VoFailure.

Import Vo Missing.

Context {W : Type} `{!World W}.
Variable cfg : Config.
Variable dry : bool.
Variable storage_name datestamp institute : string.

Lemma new_vo_self id (s s0 : St W) :
  new_vo cfg id institute s = (Ok tt, s0) → vo_id (self s0) = id.
Proof.
  unfold new_vo, bind, do_call.
  destruct (perform _ _) as [[v|e] w']; [|done].
  destruct (storage cfg !! institute) as [[]|]; try done.
  by intros [= <-].
Qed.

(** C2, as the code has it: when the steps of a VO raise, the handler
    stores under the VO the method object [vo.members], not the list of
    members (the method is not called, so nothing is asked of the account
    page), and the loop goes on to the next VO; when the VO already has an
    entry in the failed map, storing the method object raises a
    [TypeError] outside any handler and the whole run stops there. *)
Theorem vo_failure_records_bound_method id res (s s0 s1 : St W) res1 e :
  new_vo cfg id institute s = (Ok tt, s0) →
  provision_vo cfg dry storage_name datestamp institute id
    (res, (modify_self (set_dry_run dry) s0).2) = (Raise e, (res1, s1)) →
  let out := process_vo cfg dry storage_name datestamp institute id (res, s) in
  vo_id (self s1) = id
  ∧ match error_vos res1 !! id with
    | None =>
        out = (Ok tt, ({| ok_vos := ok_vos res1;
                          error_vos := <[id := PyBoundMethod id "members"]> (error_vos res1) |},
                       s1))
    | Some _ => out = (Raise TypeError, (res1, s1))
    end.
Proof.
  intros Hnew Hrun out.
  assert (vo_id (self s1) = id) as Hid.
  { pose proof (only_provision_vo cfg dry storage_name datestamp institute id
                  (res, (modify_self (set_dry_run dry) s0).2)) as [_ (Hv & _)].
    rewrite Hrun in Hv. simpl in Hv. rewrite Hv. by apply new_vo_self in Hnew. }
  split; [done|].
  assert (out = match MonoidDict_setitem (error_vos res1) id (PyBoundMethod id "members") with
                | Ok d => (Ok tt, ({| ok_vos := ok_vos res1; error_vos := d |}, s1))
                | Raise e' => (Raise e', (res1, s1))
                end) as ->.
  { subst out. unfold process_vo, bind at 1, method at 1. cbn [fst snd]. rewrite Hnew.
    unfold bind at 1, method at 1. cbn [fst snd].
    unfold try_except. unfold modify_self in *. cbn [fst snd] in *. rewrite Hrun.
    unfold bind, method, get_self, error_vos_setitem. cbn [fst snd].
    by rewrite Hid. }
  unfold MonoidDict_setitem.
  by destruct (error_vos res1 !! id) as [[l|v n]|].
Qed.

End VoFailure.

(** The account page is down for [gvo00002]: the failed map gets the method
    object for it. *)
Lemma vo_failure_records_bound_method_witness :
  let res := {| Vo.ok_vos := ∅; Vo.error_vos := ∅ |} in
  let out := @Vo.process_vo unit (site_world []) site false "VSC_DATA" "20240101" "gent"
               "gvo00002" (res, site_state "") in
  out.1 = Ok tt
  ∧ Vo.error_vos out.2.1 !! "gvo00002" = Some (Missing.PyBoundMethod "gvo00002" "members").
Proof.
  intros res out.
  pose (s0 := (@Vo.new_vo unit (site_world []) site "gvo00002" "gent" (site_state "")).2).
  pose (run := @Vo.provision_vo unit (site_world []) site false "VSC_DATA" "20240101" "gent"
                 "gvo00002" (res, (Vo.modify_self (Vo.set_dry_run false) s0).2)).
  destruct (@vo_failure_records_bound_method unit (site_world []) site false "VSC_DATA"
              "20240101" "gent" "gvo00002" res (site_state "") s0 run.2.2 run.2.1
              (HTTPError 503)) as [_ Hout].
  - reflexivity.
  - reflexivity.
  - change (Vo.error_vos run.2.1 !! "gvo00002") with (@None Missing.pyobj) in Hout.
    cbv iota in Hout. subst out. rewrite Hout. cbn [fst snd Vo.error_vos].
    split; [done|]. by rewrite lookup_insert_eq.
Defined.


(** The second of three commands fails: the third is not run. *)
Lemma execute_commands_stops_at_first_failure_witness :
  let run := fun (c : list string) (w : nat) =>
               (if decide (c = ["sacctmgr"; "bad"]) then 1%Z else 0%Z, S w) in
  let commands := [["sacctmgr"; "add"]; ["sacctmgr"; "bad"]; ["sacctmgr"; "remove"]] in
  let ran := [(["sacctmgr"; "add"], 0%Z); (["sacctmgr"; "bad"], 1%Z)] in
  SyncSlurmAcct.execute_commands run commands 0 []
  = (Raise (SacctMgrException ["sacctmgr"; "bad"]), 2, ran)
  ∧ ∃ post, commands = map fst ran ++ post.
Proof.
  intros run commands ran.
  assert (SyncSlurmAcct.execute_commands run commands 0 []
          = (Raise (SacctMgrException ["sacctmgr"; "bad"]), 2, ran)) as Hrun by reflexivity.
  split; [exact Hrun|].
  destruct (execute_commands_stops_at_first_failure run commands 0 _ _ _ Hrun) as [Hpost _].
  exact Hpost.
Defined.


(** * slurm/sacct.py: lines, headers and the jobs of a user *)

Section SacctLines.

Import Sacct.

Lemma split_no_sep v : has_char "|" v = false → split "|" v = [v].
Proof.
  induction v as [|c v IH]; [done|]. simpl.
  destruct (Ascii.eqb c "|"); [done|]. simpl. intros Hv. by rewrite (IH Hv).
Qed.

Lemma split_app_sep v rest :
  has_char "|" v = false → split "|" (v ++ "|" ++ rest)%string = v :: split "|" rest.
Proof.
  induction v as [|c v IH]; [done|]. simpl.
  destruct (Ascii.eqb c "|"); [done|]. simpl. intros Hv. by rewrite (IH Hv).
Qed.

Lemma split_join_fields vs :
  vs ≠ [] → Forall (fun v => has_char "|" v = false) vs →
  split "|" (join_fields vs) = vs.
Proof.
  induction vs as [|v vs IH]; [done|]. intros _ Hvs.
  inversion_clear Hvs as [|?? Hv Hvs'].
  destruct vs as [|v' vs]; [by apply split_no_sep|].
  change (join_fields (v :: v' :: vs)) with (v ++ "|" ++ join_fields (v' :: vs))%string.
  rewrite split_app_sep by done. by rewrite IH.
Qed.

Lemma standard_record (fields : list string) :
  dict (zip SacctJobsFields fields) !! "JobID" = fields !! 0%nat
  ∧ dict (zip SacctJobsFields fields) !! "JobName" = fields !! 1%nat
  ∧ dict (zip SacctJobsFields fields) !! "Partition" = fields !! 2%nat
  ∧ dict (zip SacctJobsFields fields) !! "Account" = fields !! 3%nat
  ∧ dict (zip SacctJobsFields fields) !! "AllocCPUS" = fields !! 4%nat
  ∧ dict (zip SacctJobsFields fields) !! "State" = fields !! 5%nat
  ∧ dict (zip SacctJobsFields fields) !! "ExitCode" = fields !! 6%nat.
Proof.
  do 8 (try destruct fields as [|? fields]); by vm_compute.
Qed.

Lemma line_of_values vs :
  vs ≠ [] → Forall (fun v => has_char "|" v = false) vs →
  rstrip (join_fields vs) = join_fields vs →
  parse_slurm_sacct_line mkNamedTupleInstance_SlurmJobs SacctJobsFields
    (rstrip (join_fields vs)) SacctTypes_jobs = Ok (record_of vs).
Proof.
  intros Hne Hvs ->. unfold parse_slurm_sacct_line, mkSlurmJobs, mkNamedTupleInstance_SlurmJobs.
  rewrite split_join_fields by done.
  destruct (standard_record vs) as (-> & -> & -> & -> & -> & -> & ->). done.
Qed.

(** X1: A dump under the header of [SacctJobsFields] whose data lines are rows
    of values joined by ["|"] parses to the set of the records of the rows:
    column [i] of a record is value [i] of its row, [None] when the row is
    too short, and values after the seventh are dropped. *)
Theorem parse_slurm_sacct_dump_rows rows :
  Forall (fun vs => vs ≠ [] ∧ Forall (fun v => has_char "|" v = false) vs
                    ∧ rstrip (join_fields vs) = join_fields vs) rows →
  parse_slurm_sacct_dump mkNamedTupleInstance_SlurmJobs
    (join_fields SacctJobsFields :: map join_fields rows) SacctTypes_jobs
  = Ok (list_to_set (map record_of rows)).
Proof.
  intros Hrows. unfold parse_slurm_sacct_dump.
  change (sacct_header (join_fields SacctJobsFields)) with SacctJobsFields.
  assert (∀ acc, parse_slurm_sacct_lines mkNamedTupleInstance_SlurmJobs SacctJobsFields
                   SacctTypes_jobs (map join_fields rows) acc
                 = Ok (list_to_set (map record_of rows) ∪ acc)) as Hgen.
  { induction Hrows as [|vs rows (Hne & Hvs & Hr) _ IH]; intros acc.
    - simpl. by rewrite union_empty_l_L.
    - cbn [map parse_slurm_sacct_lines]. rewrite line_of_values by done.
      change (truthy (record_of vs)) with true. cbv iota.
      rewrite IH. cbn [list_to_set]. f_equal.
      by rewrite union_assoc_L, (union_comm_L {[record_of vs]}). }
  by rewrite Hgen, union_empty_r_L.
Qed.

Lemma parse_lines_ok creator header it ls acc :
  is_ok (parse_slurm_sacct_lines creator header it ls acc) = true
  ↔ Forall (fun l => is_ok (parse_slurm_sacct_line creator header (rstrip l) it) = true) ls.
Proof.
  revert acc. induction ls as [|l ls IH]; intros acc; simpl.
  - split; [constructor|done].
  - destruct (parse_slurm_sacct_line creator header (rstrip l) it) as [i|e] eqn:El.
    + destruct (truthy i); rewrite IH; (split; [intros ?; constructor; [by rewrite El|done]
                                                |by inversion 1]).
    + split; [done|]. inversion 1 as [|?? Hl]. by rewrite El in Hl.
Qed.

(** X2: The records of a dump depend on which data lines it has, not on their
    order nor on how often a line is repeated: when a dump parses to a set of
    records, a dump with the same header and the same lines parses to that
    set. *)
Theorem parse_slurm_sacct_dump_lines_as_set creator line0 ls ls' it s :
  (∀ l, l ∈ ls ↔ l ∈ ls') →
  parse_slurm_sacct_dump creator (line0 :: ls) it = Ok s →
  parse_slurm_sacct_dump creator (line0 :: ls') it = Ok s.
Proof.
  unfold parse_slurm_sacct_dump. intros Hls Hs.
  assert (is_ok (parse_slurm_sacct_lines creator (sacct_header line0) it ls' ∅) = true) as Hok.
  { apply parse_lines_ok. apply Forall_forall. intros l Hl.
    assert (is_ok (parse_slurm_sacct_lines creator (sacct_header line0) it ls ∅) = true) as Hok
      by (by rewrite Hs).
    apply parse_lines_ok in Hok. rewrite Forall_forall in Hok. apply Hok. by apply Hls. }
  destruct (parse_slurm_sacct_lines creator (sacct_header line0) it ls' ∅) as [s'|e] eqn:Hs';
    [|done].
  f_equal. apply set_eq. intros j.
  rewrite (parse_lines_elem_of _ _ _ _ _ _ Hs' j), (parse_lines_elem_of _ _ _ _ _ _ Hs j).
  split; (intros [?|(Hj & l & Hl & Hp)]; [by left|right]; split; [done|];
          exists l; split; [by apply Hls|done]).
Qed.

Lemma rstrip_all_space pad : all_space pad = true → rstrip pad = "".
Proof.
  induction pad as [|c pad IH]; [done|]. simpl.
  intros [Hc Hpad]%andb_true_iff. by rewrite (IH Hpad), Hc.
Qed.

Lemma rstrip_app_space l pad : all_space pad = true → rstrip (l ++ pad)%string = rstrip l.
Proof.
  intros Hpad. induction l as [|c l IH]; simpl.
  - by apply rstrip_all_space.
  - by rewrite IH.
Qed.

(** X3: White space at the end of the lines of a dump, such as a carriage
    return or a newline, does not change what the dump parses to. *)
Theorem parse_slurm_sacct_dump_trailing_space creator lines pad it :
  all_space pad = true →
  parse_slurm_sacct_dump creator (map (fun l => (l ++ pad)%string) lines) it
  = parse_slurm_sacct_dump creator lines it.
Proof.
  intros Hpad. destruct lines as [|line0 ls]; [done|].
  cbn [map parse_slurm_sacct_dump]. unfold sacct_header.
  rewrite rstrip_app_space by done.
  generalize (∅ : gset info).
  induction ls as [|l ls IH]; intros acc; [done|].
  cbn [map parse_slurm_sacct_lines]. rewrite rstrip_app_space by done.
  destruct (parse_slurm_sacct_line _ _ _ _) as [i|e]; [|done].
  destruct (truthy i); apply IH.
Qed.

Lemma has_char_app c a b : has_char c (a ++ b)%string = has_char c a || has_char c b.
Proof. induction a as [|x a IH]; [done|]. simpl. by rewrite IH, orb_assoc. Qed.

Lemma has_char_replace c old new s :
  has_char c new = false → c = old ∨ has_char c s = false →
  has_char c (replace old new s) = false.
Proof.
  intros Hnew Hs. induction s as [|x s IH]; [done|]. simpl.
  destruct (Ascii.eqb_spec x old) as [->|Hne].
  - rewrite has_char_app, Hnew. simpl. apply IH.
    destruct Hs as [?|Hs]; [by left|]. right. simpl in Hs. by apply orb_false_iff in Hs as [_ ?].
  - simpl. destruct Hs as [->|Hs].
    + destruct (Ascii.eqb_spec x old); [done|]. simpl. apply IH. by left.
    + simpl in Hs. apply orb_false_iff in Hs as [-> Hs]. simpl. apply IH. by right.
Qed.

Lemma split_has_no_sep sep s w : w ∈ split sep s → has_char sep w = false.
Proof.
  revert w. induction s as [|c s IH]; intros w; simpl.
  - by intros ->%list_elem_of_singleton.
  - destruct (Ascii.eqb_spec c sep) as [->|Hne].
    + intros [->|Hw]%elem_of_cons; [done|]. by apply IH.
    + destruct (split sep s) as [|w0 ws] eqn:Es.
      * intros ->%list_elem_of_singleton. simpl.
        by destruct (Ascii.eqb_spec c sep).
      * intros [->|Hw]%elem_of_cons.
        -- simpl. destruct (Ascii.eqb_spec c sep); [done|]. simpl. apply IH. by left.
        -- apply IH. by right.
Qed.

(** X4: The column names of a header hold no separator, no blank and no percent
    sign: blanks become underscores and a percent sign becomes [PCT_]. *)
Theorem sacct_header_names line0 w :
  w ∈ sacct_header line0 →
  has_char "|" w = false ∧ has_char " " w = false ∧ has_char "%" w = false.
Proof.
  unfold sacct_header. intros (w0 & -> & Hw0)%list_elem_of_fmap.
  apply split_has_no_sep in Hw0.
  split; [|split].
  - apply has_char_replace; [done|right]. apply has_char_replace; [done|by right].
  - apply has_char_replace; [done|right]. apply has_char_replace; [done|by left].
  - apply has_char_replace; [done|by left].
Qed.

End SacctLines.

Section ActiveJobsFacts.

Import Sacct.

Context {W : Type}.
Variable creator : gmap string string → result info.
Variable asyncloop : list string → W → (Z * string) * W.
Variable re_search : string → string → bool.
Variable splitlines : string → list string.

(** X5: [get_slurm_sacct_active_jobs_for_user] hands back job records for no
    output of [sacct]: when the command succeeds and prints a data line the
    parser raises, because the selector it is given is not
    [SacctTypes.jobs]; a header alone gives the empty set, and no line at all
    an [IndexError].  When the command fails the result is [None] for an
    unknown user and an exception otherwise. *)
Theorem active_jobs_for_user_outcomes user w :
  let cmd := [SLURM_SACCT; "--allclusters"; "--parsable2"; "--state"; "RUNNING,PENDING";
              "--user"; user] in
  let exitcode := (asyncloop cmd w).1.1 in
  let contents := (asyncloop cmd w).1.2 in
  let out := get_slurm_sacct_active_jobs_for_user creator asyncloop re_search splitlines user w in
  out.2 = (asyncloop cmd w).2
  ∧ match out.1 with
    | Ok None =>
        exitcode ≠ 0%Z
        ∧ re_search ("sacct: error: Invalid user id: " ++ user)%string contents = true
    | Ok (Some jobs) => exitcode = 0%Z ∧ jobs = ∅ ∧ length (splitlines contents) = 1%nat
    | Raise e =>
        (exitcode ≠ 0%Z ∧ e = OtherException "SacctException")
        ∨ (exitcode = 0%Z ∧ splitlines contents = [] ∧ e = IndexError)
        ∨ (exitcode = 0%Z ∧ (2 ≤ length (splitlines contents))%nat ∧ e = SacctParseException)
    end.
Proof.
  intros cmd exitcode contents out. subst out exitcode contents.
  unfold get_slurm_sacct_active_jobs_for_user. fold cmd.
  destruct (asyncloop cmd w) as [[ec contents] w']. cbn [fst snd].
  destruct (Z.eqb_spec ec 0) as [->|Hne]; cbn [negb].
  - destruct (splitlines contents) as [|h [|l ls]]; cbn; (split; [done|]).
    + right; left. done.
    + done.
    + right; right. split; [done|]. split; [simpl; lia|done].
  - destruct (re_search _ _); cbn; (split; [done|]); [done|by left].
Qed.

End ActiveJobsFacts.
(** The dump of the test suite: three jobs, two of them without a
    partition. *)
Lemma parse_slurm_sacct_dump_rows_witness :
  let rows := [["14367800"; "normal"; "part1"; "acc1"; "1"; "RUNNING"; "0:0"];
               ["14367800.batch"; "batch"; ""; "acc1"; "1"; "RUNNING"; "0:0"];
               ["14367800.extern"; "extern"; ""; "acc1"; "1"; "RUNNING"; "0:0"]] in
  Sacct.parse_slurm_sacct_dump Sacct.mkNamedTupleInstance_SlurmJobs
    ["JobID|JobName|Partition|Account|AllocCPUS|State|ExitCode";
     "14367800|normal|part1|acc1|1|RUNNING|0:0";
     "14367800.batch|batch||acc1|1|RUNNING|0:0";
     "14367800.extern|extern||acc1|1|RUNNING|0:0"] Sacct.SacctTypes_jobs
  = Ok (list_to_set (map record_of rows)).
Proof.
  intros rows. apply (parse_slurm_sacct_dump_rows rows).
  repeat (constructor; [split; [done|split; [repeat constructor|reflexivity]]|]).
  constructor.
Defined.

Lemma parse_slurm_sacct_dump_lines_as_set_witness :
  ∃ s,
    Sacct.parse_slurm_sacct_dump Sacct.mkNamedTupleInstance_SlurmJobs
      ["JobID|State"; "2|PENDING"; "1|RUNNING"; "2|PENDING"] Sacct.SacctTypes_jobs = Ok s
    ∧ Sacct.parse_slurm_sacct_dump Sacct.mkNamedTupleInstance_SlurmJobs
        ["JobID|State"; "1|RUNNING"; "2|PENDING"] Sacct.SacctTypes_jobs = Ok s.
Proof.
  destruct (parse_lines_jobs_total (Sacct.sacct_header "JobID|State")
              ["1|RUNNING"; "2|PENDING"] ∅) as [s Hs].
  exists s. split; [|exact Hs].
  apply (parse_slurm_sacct_dump_lines_as_set Sacct.mkNamedTupleInstance_SlurmJobs
           "JobID|State" ["1|RUNNING"; "2|PENDING"] ["2|PENDING"; "1|RUNNING"; "2|PENDING"]
           Sacct.SacctTypes_jobs s); [|exact Hs].
  intros l. rewrite !elem_of_cons, !elem_of_nil. tauto.
Defined.

(** Lines that end in a carriage return and a newline. *)
Lemma parse_slurm_sacct_dump_trailing_space_witness :
  let pad := String "013" (String "010" "") in
  Sacct.parse_slurm_sacct_dump Sacct.mkNamedTupleInstance_SlurmJobs
    (map (fun l => (l ++ pad)%string) ["JobID|State"; "1|RUNNING"]) Sacct.SacctTypes_jobs
  = Sacct.parse_slurm_sacct_dump Sacct.mkNamedTupleInstance_SlurmJobs
      ["JobID|State"; "1|RUNNING"] Sacct.SacctTypes_jobs.
Proof.
  intros pad.
  apply (parse_slurm_sacct_dump_trailing_space Sacct.mkNamedTupleInstance_SlurmJobs
           ["JobID|State"; "1|RUNNING"] pad Sacct.SacctTypes_jobs).
  reflexivity.
Defined.

Lemma sacct_header_names_witness :
  Sacct.sacct_header "Job ID|CPU%" = ["Job_ID"; "CPUPCT_"]
  ∧ has_char "|" "CPUPCT_" = false ∧ has_char " " "CPUPCT_" = false
  ∧ has_char "%" "CPUPCT_" = false.
Proof.
  split; [reflexivity|].
  apply (sacct_header_names "Job ID|CPU%" "CPUPCT_").
  change ("CPUPCT_" ∈ ["Job_ID"; "CPUPCT_"]). repeat constructor.
Defined.

(** * sync_slurm_acct.py and sync_muk_projects.py: batches and projects *)

Section ExecuteCommandsCompose.

Import SyncSlurmAcct.

Context {W : Type}.
Variable RunQA_run : list string → W → Z * W.

(** X6: Running a batch made of two lists is running the first list and then,
    unless a command of it failed, the second from where the first left the
    accounting database; after a failure in the first list nothing of the
    second is run. *)
Theorem execute_commands_app cs1 cs2 w ran :
  execute_commands RunQA_run (cs1 ++ cs2) w ran
  = match execute_commands RunQA_run cs1 w ran with
    | (Ok _, w', ran') => execute_commands RunQA_run cs2 w' ran'
    | (Raise e, w', ran') => (Raise e, w', ran')
    end.
Proof.
  revert w ran. induction cs1 as [|c cs1 IH]; intros w ran; simpl; [done|].
  destruct (RunQA_run c w) as [ec w1]. destruct (negb (ec =? 0)%Z); [done|]. apply IH.
Qed.

End ExecuteCommandsCompose.

Section ProcessProject.

Import Vo.

Context {W : Type} `{!World W}.

(** X7: [process_project] never raises, and it answers [True] only after a
    complete run on the project's path: the fileset was looked up, created
    with its parent directory if and only if it was reported absent, and then
    given its permissions, its owner and the project's quota, in this
    order. *)
Theorem process_project_outcome (p : Project.MukProject) (s : Project.St (W := W)) :
  let m := SyncMukProjects.process_project p in
  let ms := backend_methods (new_events m s) in
  let path := project_path p in
  (∃ b, (m s).1 = Ok b)
  ∧ ((m s).1 = Ok true →
       ∃ fs name uid gid,
         let probe := [list_filesets; get_fileset_info fs name] in
         let create := [make_dir (os_path_dirname path); make_fileset path name None] in
         let finish := [chmod 504 path; chown uid gid path;
                        set_fileset_quota (Project.project_scratch_quota p) path name None] in
         (info_answers (new_events m s) = [true] ∧ ms = probe ++ finish)
         ∨ (info_answers (new_events m s) = [false] ∧ ms = probe ++ create ++ finish)).
Proof.
  intros m ms path.
  pose proof (emits_new_events _ _ s (traces_project_create_scratch_fileset p)) as Ht.
  assert (new_events m s = new_events (Project.create_scratch_fileset p) s
          ∧ (m s).1 = match (Project.create_scratch_fileset p s).1 with
                      | Ok _ => Ok true
                      | Raise _ => Ok false
                      end) as [Hev Hres].
  { subst m. unfold new_events, SyncMukProjects.process_project, try_except, bind, ret.
    by destruct (Project.create_scratch_fileset p s) as [[[]|e] s1]. }
  subst ms. rewrite Hev, Hres. clear Hev Hres.
  destruct (Project.create_scratch_fileset p s).1 as [[]|e]; (split; [by eexists|]); [|done].
  intros _. destruct Ht as (fs & name & uid & gid & Ht). cbn zeta in Ht.
  exists fs, name, uid, gid. cbn zeta.
  destruct Ht as [(_ & _ & Hr)|[(Ha & _ & Hr)|(Ha & _ & Hr)]]; [done|left|right].
  - split; [done|]. by apply Hr.
  - split; [done|]. by apply Hr.
Qed.

End ProcessProject.

(** * vo.py: the dry-run option *)

Section DryRunRules.

Import Vo Missing.

Context {W : Type} `{!World W}.

Lemma only_when_reads {A} d (m : M (St W) A) : only is_read m → only_when d m.
Proof.
  intros Hm s _. eapply ext_mono; [|apply Hm]. by intros [| [] | | | |].
Qed.

Lemma only_when_ret {A} d (a : A) : only_when d (@ret (St W) A a).
Proof. intros s _. apply ext_refl. Qed.

Lemma only_when_raise {A} d e : only_when d (@raise (St W) A e).
Proof. intros s _. apply ext_refl. Qed.

Lemma only_when_lift {A} d (r : result A) : only_when d (@lift (St W) A r).
Proof. intros s _. apply ext_refl. Qed.

Lemma only_when_bind {A B} d (m : M (St W) A) (k : A → M (St W) B) :
  only_when d m → (∀ a, only_when d (k a)) → only_when d (bind m k).
Proof.
  intros Hm Hk s Hd. unfold bind. specialize (Hm s Hd).
  destruct (m s) as [[a|e] s1]; simpl in *; [|done].
  eapply ext_trans; [done|]. apply Hk. destruct Hm as [_ (_ & _ & Hdry)]. congruence.
Qed.

Lemma only_when_try {A} d (m : M (St W) A) (h : exn → M (St W) A) :
  only_when d m → (∀ e, only_when d (h e)) → only_when d (try_except m h).
Proof.
  intros Hm Hk s Hd. unfold try_except. specialize (Hm s Hd).
  destruct (m s) as [[a|e] s1]; simpl in *; [done|].
  eapply ext_trans; [done|]. apply Hk. destruct Hm as [_ (_ & _ & Hdry)]. congruence.
Qed.

Lemma only_when_get_self {A} d (k : VscTier2AccountpageVo → M (St W) A) :
  (∀ o, dry_run o = d → only_when d (k o)) → only_when d (bind get_self k).
Proof. intros Hk s Hd. unfold bind, get_self. by apply Hk. Qed.

Lemma only_when_do_call d c : respects_dry_run d c → only_when d (@do_call W _ c).
Proof. intros Hc s _. by apply only_do_call. Qed.

Lemma only_when_fs_call d st m : only_when d (@fs_call W _ st m).
Proof.
  unfold fs_call. apply only_when_get_self. intros o Ho. by apply only_when_do_call.
Qed.

Lemma only_when_modify_self d f : cache_update f → only_when d (@modify_self W f).
Proof. intros Hf s _. by apply only_modify_self. Qed.

Lemma only_when_map_each {A B} d (f : A → M (St W) B) l :
  (∀ a, only_when d (f a)) → only_when d (map_each f l).
Proof.
  intros Hf. induction l; simpl; [apply only_when_ret|].
  apply only_when_bind; [auto|]. intros. apply only_when_bind; [auto|].
  intros; apply only_when_ret.
Qed.

(** The same rules for the driver. *)
Lemma only_driver_when_ret {A} d (a : A) : only_driver_when d (@ret (Results * St W) A a).
Proof. intros rs _. apply ext_refl. Qed.

Lemma only_driver_when_lift {A} d (r : result A) :
  only_driver_when d (@lift (Results * St W) A r).
Proof. intros rs _. apply ext_refl. Qed.

Lemma only_driver_when_bind {A B} d (m : M (Results * St W) A) (k : A → M (Results * St W) B) :
  only_driver_when d m → (∀ a, only_driver_when d (k a)) → only_driver_when d (bind m k).
Proof.
  intros Hm Hk rs Hd. unfold bind. specialize (Hm rs Hd).
  destruct (m rs) as [[a|e] rs1]; simpl in *; [|done].
  eapply ext_trans; [done|]. apply Hk. destruct Hm as [_ (_ & _ & Hdry)]. congruence.
Qed.

Lemma only_driver_when_try {A} d (m : M (Results * St W) A) (h : exn → M (Results * St W) A) :
  only_driver_when d m → (∀ e, only_driver_when d (h e)) → only_driver_when d (try_except m h).
Proof.
  intros Hm Hk rs Hd. unfold try_except. specialize (Hm rs Hd).
  destruct (m rs) as [[a|e] rs1]; simpl in *; [done|].
  eapply ext_trans; [done|]. apply Hk. destruct Hm as [_ (_ & _ & Hdry)]. congruence.
Qed.

Lemma only_driver_when_method {A} d (m : M (St W) A) :
  only_when d m → only_driver_when d (method m).
Proof.
  intros Hm rs Hd. unfold method. specialize (Hm rs.2 Hd).
  by destruct (m rs.2) as [r s1].
Qed.

Lemma only_driver_when_quiet {A} d (m : M (Results * St W) A) :
  only_driver (fun _ => False) m → only_driver_when d m.
Proof. intros Hm rs _. eapply ext_mono; [|apply Hm]. done. Qed.

Lemma only_driver_when_for_each {A} d (f : A → M (Results * St W) unit) l :
  (∀ a, only_driver_when d (f a)) → only_driver_when d (for_each f l).
Proof.
  intros Hf. induction l; simpl; [apply only_driver_when_ret|].
  apply only_driver_when_bind; auto.
Qed.

(** A loop whose rounds add events with a property adds only such
    events. *)
Lemma emits_for_each_all {S A} `{!HasLog S} (P : event → Prop) (f : A → M S unit) l :
  (∀ a, emits (f a) (fun _ evs => Forall P evs)) →
  emits (for_each f l) (fun _ evs => Forall P evs).
Proof.
  intros Hf. induction l as [|x l IH]; simpl.
  - by apply emits_ret.
  - eapply emits_bind; [apply Hf| |done].
    intros [] evs1 H1. eapply emits_conseq; [apply IH|].
    intros r evs2 H2. by apply Forall_app.
Qed.

End DryRunRules.

Ltac when_step :=
  match goal with
  | |- only_when _ (bind Vo.get_self _) => apply only_when_get_self; intros ? ?
  | |- only_when _ (bind _ _) => apply only_when_bind; [|intros]
  | |- only_when _ (try_except _ _) => apply only_when_try; [|intros]
  | |- only_when _ (ret _) => apply only_when_ret
  | |- only_when _ (raise _) => apply only_when_raise
  | |- only_when _ (lift _) => apply only_when_lift
  | |- only_when _ (Vo.modify_self _) => apply only_when_modify_self; by intros []
  | |- only_when _ (Vo.do_call _) =>
      apply only_when_do_call; first [exact I | assumption | simpl; congruence]
  | |- only_when _ (Vo.fs_call _ _) => apply only_when_fs_call
  | |- only_when _ (Vo.as_vo _) => unfold Vo.as_vo
  | |- only_when _ (Vo.as_group _) => unfold Vo.as_group
  | |- only_when _ (Vo.as_int _) => unfold Vo.as_int
  | |- only_when _ (Vo.as_ids _) => unfold Vo.as_ids
  | |- only_when _ (Vo.as_user _) => unfold Vo.as_user
  | |- only_when _ (match ?x with _ => _ end) => destruct x eqn:?
  | |- only_when _ (let _ := _ in _) => cbv zeta
  | H : _ |- only_when _ _ => solve [apply H | apply only_when_reads; apply H]
  end.

Ltac when_tac := repeat when_step.

Section DryRunMethods.

Import Vo Missing.

Context {W : Type} `{!World W}.
Variable cfg : Config.
Variable d : bool.

Lemma when_create_fileset st p a b c : only_when d (_create_fileset st p a b c).
Proof. pose proof (@only_vo W _). unfold _create_fileset. when_tac. Qed.

Lemma when_create_data_fileset : only_when d (create_data_fileset cfg).
Proof.
  pose proof (only_get_path cfg). pose proof when_create_fileset.
  unfold create_data_fileset, _data_path. when_tac.
Qed.

Lemma when_create_data_shared_fileset : only_when d (create_data_shared_fileset cfg).
Proof.
  pose proof (only_get_path cfg). pose proof when_create_fileset.
  pose proof (only_sharing_group cfg).
  unfold create_data_shared_fileset, _data_shared_path. when_tac.
Qed.

Lemma when_create_scratch_fileset sn : only_when d (create_scratch_fileset cfg sn).
Proof.
  pose proof (only_get_path cfg). pose proof when_create_fileset.
  unfold create_scratch_fileset, _scratch_path. when_tac.
Qed.

Lemma when_set_quota sn p q f : only_when d (_set_quota cfg sn p q f).
Proof. pose proof (@only_vo W _). unfold _set_quota. when_tac. Qed.

Lemma when_set_data_quota : only_when d (set_data_quota cfg).
Proof.
  pose proof (only_get_path cfg). pose proof when_set_quota.
  pose proof (only_vo_data_quota cfg).
  unfold set_data_quota, _data_path. when_tac.
Qed.

Lemma when_set_data_shared_quota : only_when d (set_data_shared_quota cfg).
Proof.
  pose proof (only_get_path cfg). pose proof when_set_quota.
  pose proof (only_vo_data_shared_quota cfg). pose proof (only_shared_name cfg).
  unfold set_data_shared_quota, _data_shared_path. when_tac.
Qed.

Lemma when_set_scratch_quota sn : only_when d (set_scratch_quota cfg sn).
Proof.
  pose proof (only_get_path cfg). pose proof when_set_quota.
  pose proof (only_vo_scratch_quota cfg). pose proof (@only_vo W _).
  unfold set_scratch_quota, _scratch_path. when_tac.
Qed.

Lemma when_set_member_quota sn p m q : only_when d (_set_member_quota cfg sn p m q).
Proof. unfold _set_member_quota. when_tac. Qed.

Lemma when_set_member_data_quota m : only_when d (set_member_data_quota cfg m).
Proof.
  pose proof (only_get_path cfg). pose proof when_set_member_quota.
  pose proof (only_vo_data_quota cfg). pose proof (@only_vo W _).
  unfold set_member_data_quota, _data_path. when_tac.
Qed.

Lemma when_set_member_scratch_quota sn m : only_when d (set_member_scratch_quota cfg sn m).
Proof.
  pose proof (only_get_path cfg). pose proof when_set_member_quota.
  pose proof (only_vo_scratch_quota cfg). pose proof (@only_vo W _).
  unfold set_member_scratch_quota, _scratch_path. when_tac.
Qed.

Lemma when_create_member_data_dir m : only_when d (create_member_data_dir cfg m).
Proof.
  pose proof (only_get_path cfg).
  unfold create_member_data_dir, _create_member_dir, _data_path. when_tac.
Qed.

Lemma when_create_member_scratch_dir sn m : only_when d (create_member_scratch_dir cfg sn m).
Proof.
  pose proof (only_get_path cfg).
  unfold create_member_scratch_dir, _create_member_dir_by_dict, _scratch_path. when_tac.
Qed.

Lemma when_update_vo_status : only_when d (update_vo_status cfg).
Proof. pose proof (@only_vo W _). unfold update_vo_status. when_tac. Qed.

End DryRunMethods.
Ltac when_driver_step :=
  match goal with
  | |- only_driver_when _ (bind _ _) => apply only_driver_when_bind; [|intros]
  | |- only_driver_when _ (ret _) => apply only_driver_when_ret
  | |- only_driver_when _ (lift _) => apply only_driver_when_lift
  | |- only_driver_when _ (Vo.method _) => apply only_driver_when_method
  | |- only_driver_when _ (if ?x then _ else _) => destruct x eqn:?
  | |- only_driver_when _ (for_each _ _) => apply only_driver_when_for_each; intros
  | H : _ |- only_driver_when _ _ => solve [apply H]
  | |- only_when _ Vo.get_self => apply only_when_reads, only_get_self
  | _ => when_step
  end.

Section DryRunDriver.

Import Vo Missing.

Context {W : Type} `{!World W}.
Variable cfg : Config.
Variable dry : bool.
Variable storage_name datestamp institute : string.

Lemma when_provision_member m :
  only_when dry (provision_member cfg dry storage_name institute m).
Proof.
  pose proof (when_set_member_data_quota cfg dry).
  pose proof (when_create_member_data_dir cfg dry).
  pose proof (when_set_member_scratch_quota cfg dry).
  pose proof (when_create_member_scratch_dir cfg dry).
  unfold provision_member. when_tac.
Qed.

Lemma only_driver_record_ok v :
  only_driver (fun _ => False)
    (let! o := @method W _ get_self in ok_vos_setitem (vo_id o) v).
Proof.
  apply only_driver_bind; [|intros].
  - apply only_driver_method, only_get_self.
  - apply only_driver_ok_vos_setitem.
Qed.

Lemma only_driver_record_error v :
  only_driver (fun _ => False)
    (let! o := @method W _ get_self in error_vos_setitem (vo_id o) (v o)).
Proof.
  apply only_driver_bind; [|intros].
  - apply only_driver_method, only_get_self.
  - apply only_driver_error_vos_setitem.
Qed.

Lemma when_process_member m :
  only_driver_when dry (process_member cfg dry storage_name institute m).
Proof.
  unfold process_member. apply only_driver_when_try; [|intros].
  - apply only_driver_when_bind; [|intros].
    + apply only_driver_when_method, when_provision_member.
    + apply only_driver_when_quiet, only_driver_record_ok.
  - apply only_driver_when_quiet, (only_driver_record_error (fun _ => PyList _)).
Qed.

Lemma when_factory vid : only_when dry (@factory W _ institute vid).
Proof. unfold factory. when_tac. Qed.

Lemma when_provision_vo id :
  only_driver_when dry (provision_vo cfg dry storage_name datestamp institute id).
Proof.
  pose proof (when_create_data_fileset cfg dry).
  pose proof (when_set_data_quota cfg dry).
  pose proof (when_update_vo_status cfg dry).
  pose proof (only_data_sharing cfg).
  pose proof (when_create_data_shared_fileset cfg dry).
  pose proof (when_set_data_shared_quota cfg dry).
  pose proof (when_create_scratch_fileset cfg dry).
  pose proof (when_set_scratch_quota cfg dry).
  pose proof (fun l => only_when_map_each dry (factory institute) l when_factory).
  pose proof when_process_member.
  unfold provision_vo. repeat when_driver_step.
Qed.

Lemma process_vo_respects id :
  emits (process_vo cfg dry storage_name datestamp institute id)
    (fun _ evs => Forall (fun ev => respects_dry_run dry ev.1) evs).
Proof.
  intros rs. unfold process_vo, bind at 1, method at 1, new_vo, bind at 1, do_call.
  cbn [fst snd].
  destruct (perform (new_VscTier2AccountpageVo id institute) (world rs.2)) as [[v|e] w'].
  2:{ eexists. split; [done|]. by constructor. }
  destruct (storage cfg !! institute) as [[fss|st]|]; cbn [fst snd].
  2,3: eexists; split; [done|]; by constructor.
  unfold bind at 1, method at 1, modify_self. cbn [fst snd world log self].
  match goal with
  | |- context [try_except ?m ?h (?res, ?s0)] =>
      assert (only_driver_when dry (try_except m h)) as Hrest;
      [|destruct (Hrest (res, s0) eq_refl) as [(evs & E & HF) _]]
  end.
  { apply only_driver_when_try; [apply when_provision_vo|intros].
    apply only_driver_when_quiet, (only_driver_record_error (fun o => PyBoundMethod _ _)). }
  cbn [fst snd log] in E.
  exists ((new_VscTier2AccountpageVo id institute, Ok v) :: evs). split.
  - unfold log_of, driver_has_log. cbn [fst snd]. rewrite E. by rewrite <- app_assoc.
  - constructor; [done|exact HF].
Qed.

Lemma respected_no_patches evs :
  Forall (fun ev : event => respects_dry_run true ev.1) evs → patches evs = [].
Proof.
  induction 1 as [|[c r] evs Hc _ IH]; [done|].
  destruct c as [| [] | | | |]; simpl in *; done.
Qed.

(** X8: Whatever the account page and the backends answer, every backend call
    of a run of [process_vos] goes through an operator whose dry-run flag is
    the option of the run, every member object is given that flag, and a
    status patch is only sent when the option is off: a dry run sends no
    patch. *)
Theorem process_vos_respects_dry_run vo_ids (s : St W) :
  let evs := new_events (process_vos cfg dry storage_name datestamp institute vo_ids) s in
  Forall (fun ev => respects_dry_run dry ev.1) evs
  ∧ (dry = true → patches evs = []).
Proof.
  intros evs.
  assert (Forall (fun ev => respects_dry_run dry ev.1) evs) as HF.
  { destruct (emits_for_each_all _ _ (sorted vo_ids) process_vo_respects
                ({| ok_vos := ∅; error_vos := ∅ |}, s)) as (evs' & E & HF).
    assert (evs = evs') as ->; [|done].
    apply new_events_eq. unfold process_vos.
    destruct (for_each _ _ _) as [[[]|e] [res s']]; exact E. }
  split; [done|]. intros ->. by apply respected_no_patches.
Qed.

End DryRunDriver.

(** * [process_vos]: the keys of the result dictionaries *)

Section OwnEntries.

Import Vo Missing.

Context {W : Type} `{!World W}.

Lemma writes_own_ret {A} (a : A) : writes_own_entries (@ret (Results * St W) A a).
Proof. by intros rs. Qed.

Lemma writes_own_lift {A} (r : result A) : writes_own_entries (@lift (Results * St W) A r).
Proof. by intros rs. Qed.

Lemma writes_own_bind {A B} (m : M (Results * St W) A) (k : A → M (Results * St W) B) :
  writes_own_entries m → (∀ a, writes_own_entries (k a)) → writes_own_entries (bind m k).
Proof.
  intros Hm Hk rs. unfold bind. destruct (Hm rs) as [Hid Hkeys].
  destruct (m rs) as [[a|e] rs1]; simpl in *; [|done].
  destruct (Hk a rs1) as [Hid' Hkeys']. rewrite Hid in *. split; [done|].
  intros k' Hne. destruct (Hkeys k' Hne) as [<- <-]. by apply Hkeys'.
Qed.

Lemma writes_own_try {A} (m : M (Results * St W) A) (h : exn → M (Results * St W) A) :
  writes_own_entries m → (∀ e, writes_own_entries (h e)) → writes_own_entries (try_except m h).
Proof.
  intros Hm Hk rs. unfold try_except. destruct (Hm rs) as [Hid Hkeys].
  destruct (m rs) as [[a|e] rs1]; simpl in *; [done|].
  destruct (Hk e rs1) as [Hid' Hkeys']. rewrite Hid in *. split; [done|].
  intros k' Hne. destruct (Hkeys k' Hne) as [<- <-]. by apply Hkeys'.
Qed.

Lemma writes_own_method {A} Q (m : M (St W) A) : only Q m → writes_own_entries (method m).
Proof.
  intros Hm rs. unfold method. destruct (Hm rs.2) as [_ (Hid & _)].
  by destruct (m rs.2) as [r s1].
Qed.

Lemma writes_own_record_ok v :
  writes_own_entries (let! o := @method W _ get_self in ok_vos_setitem (vo_id o) v).
Proof.
  intros [res s]. unfold bind, method, get_self, ok_vos_setitem, MonoidDict_setitem.
  cbn [fst snd].
  destruct (ok_vos res !! vo_id (self s)) as [x|]; [destruct (listm_op x v)|];
    cbn [fst snd ok_vos error_vos]; (split; [done|]); intros k Hne;
    by rewrite ?lookup_insert_ne.
Qed.

Lemma writes_own_record_error (v : VscTier2AccountpageVo → pyobj) :
  writes_own_entries (let! o := @method W _ get_self in error_vos_setitem (vo_id o) (v o)).
Proof.
  intros [res s]. unfold bind, method, get_self, error_vos_setitem, MonoidDict_setitem.
  cbn [fst snd].
  destruct (error_vos res !! vo_id (self s)) as [x|]; [destruct (listm_op x _)|];
    cbn [fst snd ok_vos error_vos]; (split; [done|]); intros k Hne;
    by rewrite ?lookup_insert_ne.
Qed.

Lemma writes_own_for_each {A} (f : A → M (Results * St W) unit) l :
  (∀ a, writes_own_entries (f a)) → writes_own_entries (for_each f l).
Proof.
  intros Hf. induction l; simpl; [apply writes_own_ret|]. apply writes_own_bind; auto.
Qed.

End OwnEntries.

(** The steps of a VO that are methods of the VO object. *)
Ltac only_vo_steps cfg :=
  let H1 := fresh in pose proof (only_create_data_fileset cfg) as H1;
  let H2 := fresh in pose proof (only_set_data_quota cfg) as H2;
  let H3 := fresh in pose proof (only_update_vo_status cfg) as H3;
  let H4 := fresh in pose proof (only_data_sharing cfg) as H4;
  let H5 := fresh in pose proof (only_create_data_shared_fileset cfg) as H5;
  let H6 := fresh in pose proof (only_set_data_shared_quota cfg) as H6;
  let H7 := fresh in pose proof (only_create_scratch_fileset cfg) as H7;
  let H8 := fresh in pose proof (only_set_scratch_quota cfg) as H8;
  repeat first
    [ solve [apply H1|apply H2|apply H3|apply H5|apply H6|apply H7|apply H8
            |eapply only_mono; [apply is_read_method_call|apply H4]]
    | apply only_ret
    | apply only_raise
    | apply only_get_self
    | apply only_do_call; exact I
    | progress unfold Vo.as_ids
    | match goal with |- only _ (if ?b then _ else _) => destruct b end
    | match goal with |- only _ (match ?b with _ => _ end) => destruct b end
    | match goal with |- only _ (bind _ _) => apply only_bind; [|intros] end ].

Section Keys.

Import Vo Missing.

Context {W : Type} `{!World W}.
Variable cfg : Config.
Variable dry : bool.
Variable storage_name datestamp institute : string.

Lemma writes_own_process_member m :
  writes_own_entries (process_member cfg dry storage_name institute m).
Proof.
  unfold process_member. apply writes_own_try; [|intros].
  - apply writes_own_bind; [|intros].
    + eapply writes_own_method, only_provision_member.
    + apply writes_own_record_ok.
  - apply (writes_own_record_error (fun _ => PyList _)).
Qed.

Lemma writes_own_provision_vo id :
  writes_own_entries (provision_vo cfg dry storage_name datestamp institute id).
Proof.
  unfold provision_vo.
  repeat first
    [ apply writes_own_ret
    | apply writes_own_lift
    | apply writes_own_for_each; intros; apply writes_own_process_member
    | match goal with
      | |- writes_own_entries (method (map_each _ _)) =>
          eapply (writes_own_method not_construction), only_map_each; intros;
          apply only_factory
      | |- writes_own_entries (method _) =>
          apply (writes_own_method method_call); only_vo_steps cfg
      end
    | match goal with |- writes_own_entries (if ?b then _ else _) => destruct b end
    | apply writes_own_bind; [|intros] ].
Qed.

Lemma process_vo_other_entries id rs k r res1 s1 :
  k ≠ id →
  process_vo cfg dry storage_name datestamp institute id rs = (r, (res1, s1)) →
  ok_vos res1 !! k = ok_vos rs.1 !! k ∧ error_vos res1 !! k = error_vos rs.1 !! k.
Proof.
  intros Hne.
  unfold process_vo, bind at 1, method at 1, new_vo, bind at 1, do_call.
  cbn [fst snd].
  destruct (perform (new_VscTier2AccountpageVo id institute) (world rs.2)) as [[v|e] w'].
  2:{ by intros [= <- <- <-]. }
  destruct (storage cfg !! institute) as [[fss|st]|]; cbn [fst snd].
  2,3: by intros [= <- <- <-].
  unfold bind at 1, method at 1, modify_self. cbn [fst snd world log self].
  match goal with
  | |- context [try_except ?m ?h (?res, ?s0)] =>
      assert (writes_own_entries (try_except m h)) as Hrest;
      [|destruct (Hrest (res, s0)) as [_ Hkeys]]
  end.
  { apply writes_own_try; [apply writes_own_provision_vo|intros].
    apply (writes_own_record_error (fun o => PyBoundMethod _ _)). }
  intros Hrun. rewrite Hrun in Hkeys. by apply Hkeys.
Qed.

Lemma process_vos_loop_keys ids K res (s : St W) :
  (∀ id, id ∈ ids → id ∈ K) → keys_within res K →
  keys_within (for_each (process_vo cfg dry storage_name datestamp institute) ids (res, s)).2.1 K.
Proof.
  revert res s. induction ids as [|id ids IH]; intros res s Hids Hres; [done|].
  cbn [for_each]. unfold bind at 1.
  destruct (process_vo cfg dry storage_name datestamp institute id (res, s))
    as [r [res1 s1]] eqn:Erun.
  assert (keys_within res1 K) as Hres1.
  { intros k Hk. destruct (decide (k = id)) as [->|Hne]; [apply Hids; by left|].
    destruct (process_vo_other_entries _ _ _ _ _ _ Hne Erun) as [Ho He].
    cbn [fst] in Ho, He. apply Hres. by rewrite <- Ho, <- He. }
  destruct r as [[]|e]; [|done].
  apply IH; [intros; apply Hids; by right|done].
Qed.

(** X9: The dictionaries [process_vos] hands back have entries for the VOs it
    was given and for no other. *)
Theorem process_vos_keys vo_ids (s : St W) :
  match (process_vos cfg dry storage_name datestamp institute vo_ids s).1 with
  | Ok res => keys_within res vo_ids
  | Raise _ => True
  end.
Proof.
  unfold process_vos.
  pose proof (process_vos_loop_keys (sorted vo_ids) vo_ids {| ok_vos := ∅; error_vos := ∅ |} s)
    as Hloop.
  destruct (for_each _ _ _) as [[[]|e] [res s']]; cbn [fst snd] in *; [|done].
  apply Hloop.
  - intros id. unfold sorted. by rewrite merge_sort_Permutation.
  - intros k [[? Hk]|[? Hk]]; cbn in Hk; by rewrite lookup_empty in Hk.
Qed.

End Keys.

(** * [process_vos]: storages and VOs that are passed over *)

Section PassedOver.

Import Vo Missing.

Context {W : Type} `{!World W}.
Variable cfg : Config.
Variable dry : bool.
Variable datestamp institute : string.

Lemma process_vo_home id rs :
  ∃ ev, is_construction ev.1
        ∧ log (process_vo cfg dry (VSC_HOME cfg) datestamp institute id rs).2.2
          = log rs.2 ++ [ev]
        ∧ (process_vo cfg dry (VSC_HOME cfg) datestamp institute id rs).2.1 = rs.1.
Proof.
  unfold process_vo, provision_vo. rewrite String.eqb_refl.
  unfold bind, method, new_vo, bind, do_call, try_except, ret, raise, modify_self.
  cbn [fst snd].
  destruct (perform (new_VscTier2AccountpageVo id institute) (world rs.2)) as [[v|e] w'];
    [destruct (storage cfg !! institute) as [[fss|st]|]|]; cbn [fst snd log];
    (eexists; split; [|split; reflexivity]; exact I).
Qed.

(** X10: For the home storage [process_vos] constructs the VO objects and does
    nothing else: no request to the account page, no backend call, and both
    dictionaries come back empty. *)
Theorem process_vos_home_is_passed_over vo_ids (s : St W) :
  let m := process_vos cfg dry (VSC_HOME cfg) datestamp institute vo_ids in
  Forall (fun ev => is_construction ev.1) (new_events m s)
  ∧ match (m s).1 with
    | Ok res => res = {| ok_vos := ∅; error_vos := ∅ |}
    | Raise _ => True
    end.
Proof.
  intros m.
  assert (∀ ids rs r rs',
            for_each (process_vo cfg dry (VSC_HOME cfg) datestamp institute) ids rs = (r, rs') →
            ∃ evs, Forall (fun ev : event => is_construction ev.1) evs
                   ∧ log rs'.2 = log rs.2 ++ evs ∧ rs'.1 = rs.1) as Hloop.
  { induction ids as [|id ids IH]; intros rs r rs'.
    - intros [= <- <-]. exists []. by rewrite app_nil_r.
    - cbn [for_each]. unfold bind.
      destruct (process_vo_home id rs) as (ev & Hev & Hlog & Hres).
      destruct (process_vo cfg dry (VSC_HOME cfg) datestamp institute id rs)
        as [[[]|e] rs1]; cbn [fst snd] in *.
      + intros Hrest. destruct (IH _ _ _ Hrest) as (evs & Hevs & Hlog' & Hres').
        exists (ev :: evs). split; [by constructor|].
        rewrite Hlog', Hlog, Hres', Hres, <- app_assoc. done.
      + intros [= <- <-]. exists [ev]. split; [by constructor|done]. }
  subst m. unfold new_events, process_vos, log_of, St_has_log.
  destruct (for_each _ _ _) as [r [res s']] eqn:Erun.
  destruct (Hloop _ _ _ _ Erun) as (evs & Hevs & Hlog & Hres). cbn [fst snd] in *.
  destruct r as [[]|e]; cbn [fst snd]; rewrite Hlog, drop_app_length; by split.
Qed.

End PassedOver.

Section DefaultVo.

Import Vo Missing.

Context {W : Type} `{!World W}.
Variable cfg : Config.
Variable dry : bool.
Variable storage_name datestamp institute : string.

Lemma only_driver_bind_lift {A B} Q (r : result A) (k : A → M (Results * St W) B) :
  (∀ a, r = Ok a → only_driver Q (k a)) → only_driver Q (bind (lift r) k).
Proof.
  intros Hk rs. unfold bind, lift. destruct r as [a|e]; [by apply Hk|apply ext_refl].
Qed.

Lemma provision_vo_default id :
  (∃ by_institute, INSTITUTE_VOS_BY_INSTITUTE cfg !! institute = Some by_institute
                   ∧ by_institute !! institute = Some id)
  ∨ (id ∈ DEFAULT_VOS_ALL cfg
     ∧ (storage_name = VSC_HOME cfg ∨ storage_name = VSC_DATA cfg)) →
  only_driver method_call (provision_vo cfg dry storage_name datestamp institute id).
Proof.
  intros Hid. unfold provision_vo.
  destruct (String.eqb_spec storage_name (VSC_HOME cfg)) as [Hhome|Hhome];
    [apply only_driver_ret|].
  apply only_driver_bind; [apply only_driver_method; only_vo_steps cfg|intros _].
  apply only_driver_bind; [apply only_driver_method; only_vo_steps cfg|intros _].
  apply only_driver_bind_lift; intros by_institute Hby.
  apply only_driver_bind_lift; intros institute_vo Hvo.
  destruct (String.eqb_spec id institute_vo) as [Hivo|Hivo]; [apply only_driver_ret|].
  apply only_driver_bind; [apply only_driver_lift|intros scratch].
  apply only_driver_bind; [apply only_driver_method; only_vo_steps cfg|intros _].
  destruct Hid as [(bi & Hbi & Hid)|[Hin [-> | ->]]].
  - unfold getitem in Hby, Hvo. rewrite Hbi in Hby. injection Hby as <-.
    rewrite Hid in Hvo. by injection Hvo.
  - done.
  - rewrite bool_decide_eq_true_2 by done. rewrite String.eqb_refl, orb_true_r.
    apply only_driver_ret.
Qed.

Lemma process_vo_emits_all (P : event → Prop) id :
  (∀ r, P (new_VscTier2AccountpageVo id institute, r)) →
  emits (provision_vo cfg dry storage_name datestamp institute id)
    (fun _ evs => Forall P evs) →
  emits (process_vo cfg dry storage_name datestamp institute id)
    (fun _ evs => Forall P evs).
Proof.
  intros HP Hprov. unfold process_vo.
  eapply emits_bind with (Ψ := fun _ evs => Forall P evs); [| |done].
  - apply emits_method. unfold new_vo.
    eapply emits_bind with (Ψ := fun _ evs => Forall P evs); [| |done].
    + apply emits_do_call. intros r. by constructor.
    + intros a evs1 H1.
      destruct (storage cfg !! institute) as [[]|].
      * intros s. exists []. by rewrite !app_nil_r.
      * apply emits_raise. by rewrite app_nil_r.
      * apply emits_raise. by rewrite app_nil_r.
  - intros [] evs1 H1.
    eapply emits_bind with (Ψ := fun _ evs => evs = []).
    + apply emits_method. intros s. exists []. by rewrite app_nil_r.
    + intros [] ? ->.
      eapply emits_try with (Ψ := fun _ evs => Forall P evs); [exact Hprov| |].
      * intros ? evs2 H2. simpl. by apply Forall_app.
      * intros e evs2 H2. eapply emits_conseq.
        -- apply (only_driver_emits _ _ (only_driver_record_error
                                           (fun o => PyBoundMethod (vo_id o) "members"))).
        -- intros r evs3 H3. simpl. rewrite !Forall_app. split; [done|split; [done|]].
           eapply Forall_impl; [exact H3|done].
    + intros e ? ->. by rewrite app_nil_r.
Qed.

(** X11: The members of the VO of the institute itself are not deployed on any
    storage, nor are those of a default VO on the home and data storages: in
    the round of such a VO no member is started.  All a round does then is
    construct the VO object and call its methods. *)
Theorem default_vo_members_not_deployed id rs :
  (∃ by_institute, INSTITUTE_VOS_BY_INSTITUTE cfg !! institute = Some by_institute
                   ∧ by_institute !! institute = Some id)
  ∨ (id ∈ DEFAULT_VOS_ALL cfg
     ∧ (storage_name = VSC_HOME cfg ∨ storage_name = VSC_DATA cfg)) →
  let evs := new_events (process_vo cfg dry storage_name datestamp institute id) rs in
  started evs = []
  ∧ Forall (fun ev => is_construction ev.1 ∨ method_call ev.1) evs.
Proof.
  intros Hid evs.
  assert (Forall (fun ev : event => is_construction ev.1 ∨ method_call ev.1) evs) as HF.
  { subst evs.
    apply (emits_new_events (process_vo cfg dry storage_name datestamp institute id)
             (fun _ evs => Forall (fun ev : event => is_construction ev.1 ∨ method_call ev.1) evs)
             rs).
    apply process_vo_emits_all; [by left|].
    eapply emits_conseq; [apply (only_driver_emits _ _ (provision_vo_default id Hid))|].
    intros r evs' HF. eapply Forall_impl; [exact HF|]. by right. }
  split; [|done]. apply started_none. eapply Forall_impl; [exact HF|].
  intros [c r] [Hc|Hc]; by destruct c.
Qed.

End DefaultVo.

(** The VO of the institute on the scratch storage of the small site. *)
Lemma default_vo_members_not_deployed_witness :
  started (new_events (@Vo.process_vo unit (site_world ["vsc40001"]) site false
                         "VSC_SCRATCH_KYUKON" "20240101" "gent" "gvo00012")
             ({| Vo.ok_vos := ∅; Vo.error_vos := ∅ |}, site_state "")) = [].
Proof.
  destruct (@default_vo_members_not_deployed unit (site_world ["vsc40001"]) site false
              "VSC_SCRATCH_KYUKON" "20240101" "gent" "gvo00012"
              ({| Vo.ok_vos := ∅; Vo.error_vos := ∅ |}, site_state "")) as [Hs _].
  - left. exists {[ "gent" := "gvo00012" ]}. split; reflexivity.
  - exact Hs.
Defined.

(** * vo.py: storages that are missing, and the scratch directory of a member *)

Section MissingStorage.

Import Vo Missing.

Context {W : Type} `{!World W}.
Variable cfg : Config.

Lemma bind_not_ok {S A B} (m : M S A) (k : A → M S B) s :
  is_ok (m s).1 = false → is_ok (bind m k s).1 = false ∧ (bind m k s).2 = (m s).2.
Proof. unfold bind. by destruct (m s) as [[a|e] s1]. Qed.

Lemma get_path_missing_storage sn (s : St W) :
  storage_of cfg (host_institute (self s)) sn = Raise KeyError →
  is_ok (_get_path cfg sn "backend" s).1 = false
  ∧ backend_methods (new_events (_get_path cfg sn "backend") s) = [].
Proof.
  intros Hst. split.
  - unfold _get_path, bind at 1, get_self. cbn [fst snd].
    unfold bind at 1, lift.
    destruct (getitem (path_templates cfg) (host_institute (self s))) as [t|e]; [|done].
    unfold bind at 1. destruct (getitem t sn) as [tpl|e]; [|done].
    unfold bind at 1. destruct (vo s) as [[v|e] s1]; [|done].
    cbn [String.eqb Ascii.eqb Bool.eqb]. unfold bind, lift. by rewrite Hst.
  - destruct (only_get_path cfg sn "backend" s) as [(evs & E & HF) _].
    assert (new_events (_get_path cfg sn "backend") s = evs) as ->
      by (by apply new_events_eq).
    by apply reads_no_backend.
Qed.

(** X12: With a storage that is missing from the dictionary of the institute:
    [_create_vo_dir] logs and returns; [_set_quota], [_set_member_quota] and
    [_create_member_dir] go on after logging and fail on the variable that
    was never bound; [create_scratch_fileset] fails in the lookup of the
    path, before its own handler; none of them calls the backend. *)
Theorem missing_storage_outcomes sn path member quota target c n (s : St W) :
  storage_of cfg (host_institute (self s)) sn = Raise KeyError →
  _create_vo_dir cfg path sn s = (Ok tt, s)
  ∧ _set_quota cfg sn path quota (Some (String c n)) s = (Raise UnboundLocalError, s)
  ∧ _set_member_quota cfg sn path member quota s = (Raise UnboundLocalError, s)
  ∧ _create_member_dir cfg member target sn s = (Raise UnboundLocalError, s)
  ∧ is_ok (create_scratch_fileset cfg sn s).1 = false
  ∧ backend_methods (new_events (create_scratch_fileset cfg sn) s) = [].
Proof.
  intros Hst.
  split; [|split; [|split; [|split]]].
  - unfold _create_vo_dir, bind, get_self. cbn [fst snd]. by rewrite Hst.
  - unfold _set_quota, bind, get_self, ret. cbn [fst snd]. by rewrite Hst.
  - unfold _set_member_quota, bind, get_self. cbn [fst snd]. by rewrite Hst.
  - unfold _create_member_dir, bind, get_self. cbn [fst snd]. by rewrite Hst.
  - destruct (get_path_missing_storage sn s Hst) as [Hr Hb].
    unfold new_events in *. unfold create_scratch_fileset, _scratch_path.
    match goal with
    | |- context [bind (_get_path ?a ?b ?c) ?k s] =>
        destruct (bind_not_ok (_get_path a b c) k s Hr) as [-> ->]
    end.
    by split.
Qed.

(** X13: When the data storage, or the shared data storage, is missing from
    the dictionary of the institute, [create_data_fileset] and
    [create_data_shared_fileset] raise from the lookup of the path and call
    no backend method; the branch that logs the missing storage and returns
    is not reached. *)
Theorem missing_data_storage_raises (s : St W) :
  (storage_of cfg (host_institute (self s)) (VSC_DATA cfg) = Raise KeyError →
   is_ok (create_data_fileset cfg s).1 = false
   ∧ backend_methods (new_events (create_data_fileset cfg) s) = [])
  ∧ (storage_of cfg (host_institute (self s)) (VSC_DATA_SHARED cfg) = Raise KeyError →
     is_ok (create_data_shared_fileset cfg s).1 = false
     ∧ backend_methods (new_events (create_data_shared_fileset cfg) s) = []).
Proof.
  split; intros Hst; destruct (get_path_missing_storage _ s Hst) as [Hr Hb];
    unfold new_events in *.
  - unfold create_data_fileset, _data_path.
    match goal with
    | |- context [bind (_get_path ?a ?b ?c) ?k s] =>
        destruct (bind_not_ok (_get_path a b c) k s Hr) as [-> ->]
    end.
    by split.
  - unfold create_data_shared_fileset, _data_shared_path.
    match goal with
    | |- context [bind (_get_path ?a ?b ?c) ?k s] =>
        destruct (bind_not_ok (_get_path a b c) k s Hr) as [-> ->]
    end.
    by split.
Qed.

End MissingStorage.

(** A storage the small site does not have. *)
Lemma missing_storage_outcomes_witness :
  @Vo._create_vo_dir unit (site_world []) site "/kyukon/tape/gvo00001" "VSC_TAPE"
    (site_state "gvo00001") = (Ok tt, site_state "gvo00001")
  ∧ @Vo._set_member_quota unit (site_world []) site "VSC_TAPE" "/kyukon/tape/gvo00001"
      (site_user "vsc40001" 2540001) 50 (site_state "gvo00001")
    = (Raise UnboundLocalError, site_state "gvo00001").
Proof.
  destruct (@missing_storage_outcomes unit (site_world []) site "VSC_TAPE"
              "/kyukon/tape/gvo00001" (site_user "vsc40001" 2540001) 50%Z "" "g"%char ""
              (site_state "gvo00001")) as (H1 & _ & H3 & _).
  - reflexivity.
  - split; [exact H1|exact H3].
Defined.

(** * vo.py: the scratch directory of a member *)

Section ScratchMembers.

Import Vo Missing.

Context {W : Type} `{!World W}.
Variable cfg : Config.
Variable dry : bool.
Variable storage_name institute : string.





End ScratchMembers.


(** * vo.py: the parent fileset, the cached VO and the status update *)

Section MoreMethods.

Import Vo Missing.

Context {W : Type} `{!World W}.
Variable cfg : Config.

(** X15: [create_scratch_fileset] names the parent fileset ['root'] exactly for
    a GPFS storage older than 3.5: every [make_fileset] call of a run is for
    the scratch path of the VO and carries that parent, or none. *)
Theorem scratch_fileset_parent sn st (s : St W) :
  storage_of cfg (host_institute (self s)) sn = Ok st →
  let m := create_scratch_fileset cfg sn in
  let parent := if String.eqb (backend st) "gpfs" && negb (tuple_ge (version st) [3; 5; 0; 0]%Z)
                then Some "root" else None in
  ∀ p n par,
    make_fileset p n par ∈ backend_methods (new_events m s) →
    par = parent ∧ (_scratch_path cfg sn s).1 = Ok p.
Proof.
  intros Hst m parent p n par. subst m.
  destruct (only_get_path cfg sn "backend" s) as [(evs1 & E1 & HF1) (_ & Hhost & _)].
  unfold new_events, create_scratch_fileset, _scratch_path, bind at 1.
  destruct (_get_path cfg sn "backend" s) as [[path|e] s1] eqn:Ep; cbn [fst snd] in *.
  2:{ unfold log_of, St_has_log. rewrite E1, drop_app_length.
      rewrite (proj1 (reads_no_backend _ HF1)). by intros ?%elem_of_nil. }
  unfold bind at 1, get_self. cbn [fst snd]. rewrite Hhost, Hst.
  unfold bind at 1, ret. cbn [fst snd].
  assert (∀ parent r s2,
            (r, s2) = _create_fileset st path parent None None s1 →
            make_fileset p n par ∈ backend_methods (drop (length (log s)) (log s2)) →
            par = parent ∧ Ok path = Ok p) as Hrun.
  { clear parent. intros parent r s2 Hr.
    pose proof (emits_new_events _ _ s1 (traces_create_fileset st path parent None None))
      as (fs & name & uid & gid & Ht).
    destruct (traces_create_fileset st path parent None None s1) as (evs2 & E2 & _).
    rewrite (new_events_eq _ _ _ E2) in Ht. rewrite <- Hr in E2. cbn [fst snd] in *.
    unfold log_of, St_has_log in E2. rewrite E2, E1, <- app_assoc, drop_app_length.
    rewrite backend_methods_app, (proj1 (reads_no_backend _ HF1)). cbn [app].
    intros Hin.
    assert (make_fileset p n par ∈
              [list_filesets; get_fileset_info fs name; make_dir (os_path_dirname path);
               make_fileset path name parent; chmod 504 path; chown uid gid path]) as Hall.
    { cbn zeta in Ht. destruct Ht as [(_ & Hpre & _)|[(_ & Hpre & _)|(_ & Hpre & _)]];
        destruct Hpre as [rest Hpre]; cbn [app] in Hpre.
      - assert (make_fileset p n par ∈ [list_filesets; get_fileset_info fs name]) as Hin'
          by (rewrite Hpre; apply elem_of_app; by left).
        rewrite !elem_of_cons, elem_of_nil in Hin'. by destruct Hin' as [?|[?|?]].
      - assert (make_fileset p n par ∈ [list_filesets; get_fileset_info fs name;
                                        chmod 504 path; chown uid gid path]) as Hin'
          by (rewrite Hpre; apply elem_of_app; by left).
        rewrite !elem_of_cons, elem_of_nil in Hin'.
        by destruct Hin' as [?|[?|[?|[?|?]]]].
      - rewrite Hpre. apply elem_of_app. by left. }
    rewrite !elem_of_cons, elem_of_nil in Hall.
    destruct Hall as [?|[?|[?|[Heq|[?|[?|?]]]]]]; try done.
    by injection Heq as -> _ ->. }
  subst parent.
  destruct (String.eqb (backend st) "gpfs"); [destruct (tuple_ge _ _)|]; cbn [andb negb] in *;
    match goal with
    | |- context [_create_fileset ?a ?b ?c ?d ?e s1] =>
        destruct (_create_fileset a b c d e s1) as [r s2] eqn:Er; symmetry in Er;
        exact (Hrun _ r s2 Er)
    end.
Qed.

(** X16: The account page is asked for the VO at most once per object: with the
    record in the cache nothing is requested; without it exactly one request
    is made, a served record is cached, and after a failure nothing is
    cached. *)
Theorem vo_is_requested_once (s : St W) :
  (∀ v, _vo_cache (self s) = Some v → vo s = (Ok v, s))
  ∧ (_vo_cache (self s) = None →
       ∃ r, new_events vo s = [(Rest (vo_get (vo_id (self s))), r)])
  ∧ (∀ v, (vo s).1 = Ok v → vo (vo s).2 = (Ok v, (vo s).2))
  ∧ (∀ e, (vo s).1 = Raise e → _vo_cache (self (vo s).2) = _vo_cache (self s)).
Proof.
  split; [|split; [|split]].
  - intros v Hc. unfold vo, bind, get_self. by rewrite Hc.
  - intros Hc. unfold new_events, vo, bind, get_self, do_call. rewrite Hc.
    destruct (perform _ (world s)) as [[resp|e] w1]; cbn [fst snd].
    + exists (Ok resp). unfold log_of, St_has_log.
      destruct resp; cbn [as_vo raise ret modify_self fst snd log];
        by rewrite drop_app_length.
    + exists (Raise e). unfold log_of, St_has_log. cbn [log]. by rewrite drop_app_length.
  - intros v Hv. destruct (vo s) as [r s1] eqn:Erun. cbn [fst snd] in *. subst r.
    by apply vo_cached in Erun.
  - intros e. unfold vo, bind, get_self, do_call.
    destruct (_vo_cache (self s)) as [v0|] eqn:Ec; [done|].
    destruct (perform _ (world s)) as [[resp|e'] w1]; cbn [fst snd]; [|done].
    by destruct resp.
Qed.

(** X17: What [update_vo_status] answers once the patch is sent, by what the
    account page answers to it: done when the VO comes back active,
    [UserStatusUpdateError] when it comes back with another status, and for
    an HTTP error a [TypeError], raised while the message of the
    [VoStatusUpdateError] is formatted. *)
Theorem update_vo_status_outcomes (s : St W) v :
  dry_run (self s) = false →
  _vo_cache (self s) = Some v →
  status v ∈ [NEW cfg; MODIFIED cfg; MODIFY cfg] →
  (update_vo_status cfg s).1
  = match (perform (Rest (vo_patch (vo_id (self s)) (ACTIVE cfg))) (world s)).1 with
    | Ok (VVo v') =>
        if String.eqb (status v') (ACTIVE cfg) then Ok tt else Raise UserStatusUpdateError
    | Ok _ => Raise TypeError
    | Raise e => if is_HTTPError e then Raise TypeError else Raise e
    end.
Proof.
  intros Hdry Hc Hin.
  unfold update_vo_status, bind at 1, get_self. cbn [fst snd]. rewrite Hdry.
  unfold bind at 1, vo at 1, bind at 1, get_self. cbn [fst snd]. rewrite Hc.
  unfold ret at 1. rewrite bool_decide_eq_true_2 by done. cbn [negb].
  unfold bind at 1, try_except, do_call.
  destruct (perform _ (world s)) as [[resp|e] w1]; cbn [fst snd].
  - destruct resp; try done. unfold bind, as_vo, ret. by destruct (String.eqb _ _).
  - by destruct (is_HTTPError e).
Qed.

End MoreMethods.

(** The scratch storage of the small site runs a recent GPFS, and the
    fileset of [gvo00001] is made without a parent. *)
Lemma scratch_fileset_parent_witness :
  @None string
  = (if String.eqb (Vo.backend site_scratch) "gpfs"
        && negb (tuple_ge (Vo.version site_scratch) [3; 5; 0; 0]%Z)
     then Some "root" else None)
  ∧ (@Vo._scratch_path unit (site_world []) site "VSC_SCRATCH_KYUKON"
       (site_state "gvo00001")).1 = Ok "/kyukon/scratch/gent/vo/gvo00001".
Proof.
  apply (@scratch_fileset_parent unit (site_world []) site "VSC_SCRATCH_KYUKON"
           site_scratch (site_state "gvo00001") eq_refl
           "/kyukon/scratch/gent/vo/gvo00001" "gvo00001" None).
  vm_compute. repeat constructor.
Defined.

(** The account page of the small site answers a patch with the VO in the
    status asked for. *)
Lemma update_vo_status_outcomes_witness :
  let s := {| Vo.world := tt; Vo.log := [];
              Vo.self := Vo.set_vo_cache (Some (site_vo "gvo00001" "new"))
                           (Vo.fresh_vo "gvo00001" "gent") |} in
  (@Vo.update_vo_status unit (site_world []) site s).1 = Ok tt.
Proof.
  intros s.
  rewrite (@update_vo_status_outcomes unit (site_world []) site s (site_vo "gvo00001" "new"));
    [reflexivity|reflexivity|reflexivity|].
  cbn. rewrite !elem_of_cons. by left.
Defined.

(** * [process_vos]: a run over distinct VOs *)

Section FailureSafe.

Import Vo Missing.

Context {W : Type} `{!World W}.




End FailureSafe.

Section DistinctIds.

Import Vo Missing.

Context {W : Type} `{!World W}.
Variable cfg : Config.
Variable dry : bool.
Variable storage_name datestamp institute : string.






End DistinctIds.


(** * vo.py: the data directory of a member *)

Section MemberDataDir.

Import Vo Missing.

Context {W : Type} `{!World W}.
Variable cfg : Config.

(** X19: The only backend call [create_member_data_dir] makes is the creation
    of the directory named after the member inside the data path of the VO,
    with mode 0700, the member's account and group as owners, and without
    overriding the permissions of a directory that exists. *)
Theorem member_data_dir_call member (s : St W) :
  ∀ c, c ∈ backend_methods (new_events (create_member_data_dir cfg member) s) →
    ∃ path,
      (_data_path cfg s).1 = Ok path
      ∧ c = create_stat_directory (os_path_join path (user_id member)) 448
              (group_vsc_id_number (account member))
              (group_vsc_id_number (usergroup member)) false.
Proof.
  intros c.
  destruct (only_get_path cfg (VSC_DATA cfg) "backend" s) as [(evs1 & E1 & HF1) _].
  unfold new_events, log_of, St_has_log, create_member_data_dir, _data_path, bind at 1.
  destruct (_get_path cfg (VSC_DATA cfg) "backend" s) as [[path|e] s1]; cbn [fst snd] in *.
  2:{ rewrite E1, drop_app_length, (proj1 (reads_no_backend _ HF1)). by intros ?%elem_of_nil. }
  unfold _create_member_dir, bind at 1, get_self. cbn [fst snd].
  unfold bind at 1.
  destruct (storage_of cfg (host_institute (self s1)) (VSC_DATA cfg)) as [st|e].
  2:{ destruct (is_KeyError e); unfold raise; cbn [fst snd];
        rewrite E1, drop_app_length, (proj1 (reads_no_backend _ HF1));
        by intros ?%elem_of_nil. }
  unfold ret at 1, bind, fs_call, bind, get_self, do_call. cbn [fst snd].
  destruct (perform _ (world s1)) as [[v|e] w']; unfold ret; cbn [fst snd log];
    rewrite E1, <- app_assoc, drop_app_length, backend_methods_app,
      (proj1 (reads_no_backend _ HF1)); cbn;
    intros ->%list_elem_of_singleton; by exists path.
Qed.

End MemberDataDir.

(** The first member of [gvo00001] on the data storage of the small site. *)
Lemma member_data_dir_call_witness :
  ∃ path,
    (@Vo._data_path unit (site_world []) site (site_state "gvo00001")).1 = Ok path
    ∧ Vo.create_stat_directory "/kyukon/data/gent/vo/gvo00001/vsc40001" 448 2540001 2540001 false
      = Vo.create_stat_directory (os_path_join path "vsc40001") 448 2540001 2540001 false.
Proof.
  apply (@member_data_dir_call unit (site_world []) site (site_user "vsc40001" 2540001)
           (site_state "gvo00001")).
  vm_compute. constructor.
Defined.

(** * vo.py: quota records and default VOs *)

Section KeepsVo.

Import Vo Missing.

Context {W : Type} `{!World W}.

Lemma keeps_vo_ret {A} (a : A) : keeps_vo (@ret (St W) A a).
Proof. by intros s v. Qed.

Lemma keeps_vo_raise {A} e : keeps_vo (@raise (St W) A e).
Proof. by intros s v. Qed.

Lemma keeps_vo_lift {A} (r : result A) : keeps_vo (@lift (St W) A r).
Proof. by intros s v. Qed.

Lemma keeps_vo_get_self : keeps_vo (@get_self W).
Proof. by intros s v. Qed.

Lemma keeps_vo_do_call c : keeps_vo (@do_call W _ c).
Proof. intros s v Hv. unfold do_call. by destruct (perform c (world s)). Qed.

Lemma keeps_vo_bind {A B} (m : M (St W) A) (k : A → M (St W) B) :
  keeps_vo m → (∀ a, keeps_vo (k a)) → keeps_vo (bind m k).
Proof.
  intros Hm Hk s v Hv. unfold bind. specialize (Hm s v Hv).
  destruct (m s) as [[a|e] s1]; cbn [fst snd] in *; [by apply Hk|done].
Qed.

Lemma keeps_vo_try {A} (m : M (St W) A) (h : exn → M (St W) A) :
  keeps_vo m → (∀ e, keeps_vo (h e)) → keeps_vo (try_except m h).
Proof.
  intros Hm Hk s v Hv. unfold try_except. specialize (Hm s v Hv).
  destruct (m s) as [[a|e] s1]; cbn [fst snd] in *; [done|by apply Hk].
Qed.

Lemma keeps_vo_modify_self f :
  (∀ o, _vo_cache (f o) = _vo_cache o) → keeps_vo (@modify_self W f).
Proof. intros Hf s v Hv. unfold modify_self. cbn. by rewrite Hf. Qed.

Lemma keeps_vo_vo : keeps_vo (@vo W _).
Proof. intros s v Hv. unfold vo, bind, get_self. cbn [fst snd]. by rewrite Hv. Qed.

End KeepsVo.

Ltac keeps_vo_step :=
  match goal with
  | |- keeps_vo (bind _ _) => apply keeps_vo_bind; [|intros]
  | |- keeps_vo (try_except _ _) => apply keeps_vo_try; [|intros]
  | |- keeps_vo (ret _) => apply keeps_vo_ret
  | |- keeps_vo (raise _) => apply keeps_vo_raise
  | |- keeps_vo (lift _) => apply keeps_vo_lift
  | |- keeps_vo Vo.get_self => apply keeps_vo_get_self
  | |- keeps_vo Vo.vo => apply keeps_vo_vo
  | |- keeps_vo (Vo.modify_self _) => apply keeps_vo_modify_self; by intros []
  | |- keeps_vo (Vo.do_call _) => apply keeps_vo_do_call
  | |- keeps_vo (Vo.as_quota _) => unfold Vo.as_quota
  | |- keeps_vo (match ?x with _ => _ end) => destruct x
  | |- keeps_vo (let _ := _ in _) => cbv zeta
  | H : _ |- keeps_vo _ => solve [apply H]
  end.

Section QuotaRecords.

Import Vo Missing.

Context {W : Type} `{!World W}.
Variable cfg : Config.

Lemma keeps_vo_institute_quota : keeps_vo (@_institute_quota W _).
Proof. unfold _institute_quota. repeat keeps_vo_step. Qed.

Lemma keeps_vo_vo_data_quota : keeps_vo (vo_data_quota cfg).
Proof.
  pose proof keeps_vo_institute_quota.
  unfold vo_data_quota, _get_institute_non_shared_data_quota, _get_institute_data_quota.
  repeat keeps_vo_step.
Qed.

Lemma keeps_vo_vo_scratch_quota : keeps_vo (vo_scratch_quota cfg).
Proof. pose proof keeps_vo_institute_quota. unfold vo_scratch_quota. repeat keeps_vo_step. Qed.

Lemma vo_from_cache (s : St W) v : _vo_cache (self s) = Some v → vo s = (Ok v, s).
Proof. intros Hv. unfold vo, bind, get_self. cbn [fst snd]. by rewrite Hv. Qed.

(** X20: For a default VO no quota is set for a member: with the record of such
    a VO read, [set_member_data_quota] and [set_member_scratch_quota] make
    no backend call, whatever quota records the member has. *)
Theorem default_vo_member_quota_is_not_set sn member (s : St W) v :
  _vo_cache (self s) = Some v →
  vsc_id v ∈ DEFAULT_VOS_ALL cfg →
  backend_methods (new_events (set_member_data_quota cfg member) s) = []
  ∧ backend_methods (new_events (set_member_scratch_quota cfg sn member) s) = [].
Proof.
  intros Hv Hdef. split.
  - pose proof (only_vo_data_quota cfg s) as [(evs1 & E1 & HF1) _].
    pose proof (keeps_vo_vo_data_quota s v Hv) as Hv1.
    unfold new_events, log_of, St_has_log, set_member_data_quota, bind at 1.
    destruct (vo_data_quota cfg s) as [[q|e] s1]; cbn [fst snd] in *.
    2:{ rewrite E1, drop_app_length. by apply reads_no_backend. }
    assert (backend_methods (drop (length (log s)) (log s1)) = []) as Hb.
    { rewrite E1, drop_app_length. by apply reads_no_backend. }
    destruct (q =? 0)%Z.
    + unfold bind. by rewrite (vo_from_cache s1 v Hv1).
    + unfold bind at 1. rewrite (vo_from_cache s1 v Hv1).
      rewrite bool_decide_eq_true_2 by done.
      unfold bind. by rewrite (vo_from_cache s1 v Hv1).
  - pose proof (only_vo_scratch_quota cfg s) as [(evs1 & E1 & HF1) _].
    pose proof (keeps_vo_vo_scratch_quota s v Hv) as Hv1.
    unfold new_events, log_of, St_has_log, set_member_scratch_quota, bind at 1.
    destruct (vo_scratch_quota cfg s) as [[qs|e] s1]; cbn [fst snd] in *.
    2:{ rewrite E1, drop_app_length. by apply reads_no_backend. }
    assert (backend_methods (drop (length (log s)) (log s1)) = []) as Hb.
    { rewrite E1, drop_app_length. by apply reads_no_backend. }
    destruct qs as [|q0 qs].
    + unfold bind. by rewrite (vo_from_cache s1 v Hv1).
    + unfold bind at 1. rewrite (vo_from_cache s1 v Hv1).
      rewrite bool_decide_eq_true_2 by done.
      unfold bind. by rewrite (vo_from_cache s1 v Hv1).
Qed.

(** X21: Read into empty caches, the scratch quota of a VO holds only records
    of the host institute whose storage type is the scratch key, in the order
    the account page served them. *)
Theorem vo_scratch_quota_records (s : St W) qs :
  _institute_quota_cache (self s) = None →
  _vo_scratch_quota_cache (self s) = None →
  (vo_scratch_quota cfg s).1 = Ok qs →
  Forall (fun q => q_storage_institute q = host_institute (self s)
                   ∧ q_storage_type q = SCRATCH_KEY cfg) qs
  ∧ ∃ v served,
      (vo s).1 = Ok v
      ∧ (perform (Rest (vo_quota_get (vsc_id v))) (world (vo s).2)).1 = Ok (VQuota served)
      ∧ qs = List.filter (fun q => String.eqb (q_storage_type q) (SCRATCH_KEY cfg))
               (List.filter (fun q => String.eqb (q_storage_institute q) (host_institute (self s)))
                  served).
Proof.
  intros Hc1 Hc2.
  unfold vo_scratch_quota, bind at 1, get_self. cbn [fst snd]. rewrite Hc2.
  unfold bind at 1, _institute_quota, bind at 1, get_self. cbn [fst snd]. rewrite Hc1.
  unfold bind at 1. destruct (vo s) as [[v|e] s1] eqn:Evo; [|done].
  unfold bind at 1. rewrite (vo_cached _ _ _ Evo).
  unfold bind at 1, do_call.
  destruct (perform _ (world s1)) as [[resp|e] w2] eqn:Eq; cbn [fst snd]; [|done].
  destruct resp as [| | | |served| | |]; try done.
  unfold bind, as_quota, ret, modify_self. cbn [fst snd]. intros [= <-].
  split.
  - apply Forall_forall. intros q Hq.
    apply list_elem_of_In, filter_In in Hq as [Hq Ht].
    apply filter_In in Hq as [_ Hi].
    by apply String.eqb_eq in Ht, Hi.
  - exists v, served. by rewrite Eq.
Qed.

End QuotaRecords.

(** The default VO of the small site. *)
Lemma default_vo_member_quota_is_not_set_witness :
  let s := {| Vo.world := tt; Vo.log := [];
              Vo.self := Vo.set_vo_cache (Some (site_vo "gvo00012" "active"))
                           (Vo.fresh_vo "gvo00012" "gent") |} in
  backend_methods (new_events (@Vo.set_member_data_quota unit (site_world []) site
                                 site_member_two_records) s) = []
  ∧ backend_methods (new_events (@Vo.set_member_scratch_quota unit (site_world []) site
                                   "VSC_SCRATCH_KYUKON" site_member_two_records) s) = [].
Proof.
  intros s.
  apply (@default_vo_member_quota_is_not_set unit (site_world []) site "VSC_SCRATCH_KYUKON"
           site_member_two_records s (site_vo "gvo00012" "active")).
  - reflexivity.
  - cbn. by left.
Defined.

(** The scratch records of [gvo00001] on the small site. *)
Lemma vo_scratch_quota_records_witness :
  Forall (fun q => Vo.q_storage_institute q = "gent" ∧ Vo.q_storage_type q = "scratch")
    [site_quota "VSC_SCRATCH_KYUKON" "scratch" "gvo00001" 2000;
     site_quota "VSC_SCRATCH_KYUKON" "scratch" "gvo00001" 3000].
Proof.
  destruct (@vo_scratch_quota_records unit (site_world []) site (site_state "gvo00001")
              [site_quota "VSC_SCRATCH_KYUKON" "scratch" "gvo00001" 2000;
               site_quota "VSC_SCRATCH_KYUKON" "scratch" "gvo00001" 3000]) as [HF _].
  - reflexivity.
  - reflexivity.
  - reflexivity.
  - exact HF.
Defined.
